(** * Claims worklist and claim-detail audit panel

    A shallow embedding of the decision logic of the two pages of the
    front end:

    - [Worklist]: the [Home] component of [frontend/src/app/page.tsx],
      i.e. the effect that recomputes [filteredClaims] from [claims] and
      [searchQuery];
    - [Detail]: the [ClaimDetailPage] component (monochrome version), i.e.
      its state cells, the [runAudit] handler and the markup of the
      "Verification Results" column;
    - [DetailStyled]: the coding-alert list of the coloured version of
      [ClaimDetailPage], kept for comparison with [Detail];
    - [JsUpper], [Home], [Markup]: the status label [getStatusText], the
      worklist page as a whole ([fetchClaims], [handleRowClick], the
      screens) and the kinds of boxes a result is made of;
    - [Mounted]: one mounted detail view, from its first render until it
      is left.

    JavaScript strings are modelled by [string]: one [ascii] stands for one
    UTF-16 code unit below 256 (the Latin-1 range), on which
    [String.prototype.toLowerCase] and [String.prototype.trim] are given
    exactly.  Numbers that reach this logic are integers and are modelled
    by [Z]. *)

From Stdlib Require Import ZArith NArith Ascii String List Bool Lia.
From Stdlib Require Import Numbers.DecimalString.
From Stdlib Require Numbers.DecimalZ Numbers.DecimalPos.
From stdpp Require Import base list strings.
Import ListNotations.

Local Open Scope string_scope.

(** ** JavaScript string primitives used by the pages *)

Module JsString.

(** Code unit of a character, as a number. *)
Definition code (c : ascii) : N := N_of_ascii c.

(** [toLowerCase] on one code unit of the Latin-1 range: [A]-[Z] and the
    accented capitals U+00C0..U+00DE (the multiplication sign U+00D7
    excepted) move up by 32; every other code unit is unchanged. *)
Definition lowerChar (c : ascii) : ascii :=
  let n := code c in
  if ((65 <=? n) && (n <=? 90)
      || (192 <=? n) && (n <=? 222) && negb (n =? 215))%N
  then ascii_of_N (n + 32)
  else c.

(** [s.toLowerCase()] *)
Fixpoint toLowerCase (s : string) : string :=
  match s with
  | EmptyString => EmptyString
  | String c s' => String (lowerChar c) (toLowerCase s')
  end.

(** White space and line terminators stripped by [trim], below 256:
    TAB, LF, VT, FF, CR, SPACE and NBSP. *)
Definition isWhiteSpace (c : ascii) : bool :=
  let n := code c in
  ((9 <=? n) && (n <=? 13) || (n =? 32) || (n =? 160))%N.

Fixpoint trimStart (s : string) : string :=
  match s with
  | EmptyString => EmptyString
  | String c s' => if isWhiteSpace c then trimStart s' else s
  end.

Fixpoint trimEnd (s : string) : string :=
  match s with
  | EmptyString => EmptyString
  | String c s' =>
      match trimEnd s' with
      | EmptyString => if isWhiteSpace c then EmptyString
                       else String c EmptyString
      | t => String c t
      end
  end.

(** [s.trim()] *)
Definition trim (s : string) : string := trimEnd (trimStart s).

(** [s.startsWith(p)] *)
Definition startsWith (s p : string) : bool := String.prefix p s.

(** [s.includes(q)]: [q] occurs in [s] at some position. *)
Fixpoint includes (s q : string) : bool :=
  startsWith s q
  || match s with
     | EmptyString => false
     | String _ s' => includes s' q
     end.

(** Truthiness of a string: every string but the empty one. *)
Definition truthy (s : string) : bool :=
  match s with
  | EmptyString => false
  | String _ _ => true
  end.

(** Truthiness of [string | null | undefined]. *)
Definition truthyOpt (o : option string) : bool :=
  match o with
  | Some s => truthy s
  | None => false
  end.

(** Every character of the string is white space. *)
Fixpoint allWhite (s : string) : bool :=
  match s with
  | EmptyString => true
  | String c s' => isWhiteSpace c && allWhite s'
  end.

(** Number to text, as template literals and JSX print it (integers
    below 10^21, which JavaScript prints in full). *)
Definition showZ (z : Z) : string := NilZero.string_of_int (Z.to_int z).

End JsString.

(** ** The worklist page *)

Module Worklist.
Import JsString.

(** [interface Claim] of the worklist page. *)
Record Claim : Type := mkClaim {
  id : Z;
  patient_id : string;
  payer_name : option string;
  date_of_service : option string;
  claim_amount : option Z;
  status : string
}.

(** The callback given to [claims.filter]:
    [claim.patient_id.toLowerCase().includes(query) ||
     (claim.payer_name && claim.payer_name.toLowerCase().includes(query))] *)
Definition matchesQuery (query : string) (claim : Claim) : bool :=
  includes (toLowerCase (patient_id claim)) query
  || match payer_name claim with
     | Some p => truthy p && includes (toLowerCase p) query
     | None => false
     end.

(** The value the filtering effect stores in [filteredClaims]. *)
Definition filterClaims (claims : list Claim) (searchQuery : string)
  : list Claim :=
  let query := trim (toLowerCase searchQuery) in
  if negb (truthy query) then claims
  else List.filter (matchesQuery query) claims.

(** Occurrence of [q] inside [s], stated on the text. *)
Definition occursIn (q s : string) : Prop :=
  exists pre post : string, s = pre +:+ q +:+ post.

(** The matching rule in the words of the specification, for the
    normalised query [nq]. *)
Definition specMatch (nq : string) (c : Claim) : Prop :=
  occursIn nq (toLowerCase (patient_id c))
  \/ exists p, payer_name c = Some p /\ occursIn nq (toLowerCase p).

End Worklist.

(** ** The claim-detail page *)

Module Detail.
Import JsString.

(** [interface Claim] of the detail page. *)
Record Claim : Type := mkClaim {
  id : Z;
  patient_id : string;
  description : string;
  medical_specialty : option string;
  transcription : option string;
  cpt_code : string;
  cpt_description : option string;
  cpt_modifier : option string;
  icd_code : option string;
  icd_description : option string;
  payer_name : option string;
  plan_type : option string;
  policy_id : option string;
  member_id : option string;
  claim_number : option string;
  claim_amount : option Z;
  date_of_service : option string;
  date_of_submission : option string;
  denial_code : option string;
  denial_reason : option string;
  prior_auth_number : option string;
  facility_name : option string;
  place_of_service : option string;
  provider_npi : option string;
  status : string
}.

(** [interface AuditResult].  The body of the response is not validated,
    and the markup guards the declared-mandatory fields as well, so every
    field may be missing: [None] stands for [undefined] and [null], which
    no test of the page tells apart.  A field that is present has its
    declared type. *)
Record AuditResult : Type := mkAudit {
  verdict : option string;
  confidence_score : option Z;
  reasoning : option string;
  missing_criteria : option (list string);
  suggested_fix : option string;
  step_failed : option string;
  coding_flags : option (list string);
  policy_source : option string;
  audit_status : option string;      (* [status] *)
  message : option string;
  raw_output : option string
}.


(** *** Markup of the "Verification Results" column *)

(** One [<li>] of a coding-alert list; [deniedMark] tells whether the
    entry carries the denied marking (the bold "[DENIED] " lead-in). *)
Record AlertItem : Type := mkItem {
  deniedMark : bool;
  alertText : string
}.

(** The boxes a result is made of. *)
Inductive Block : Type :=
| StatusBox (label message : option string)
| CodingAlerts (items : list AlertItem)
| RawOutput (text : string)
| VerdictBox (label failedLine reasoningText sourceLine : option string)
| Confidence (text : string)
| MissingCriteria (items : list string)
| SuggestedAction (text : string).

(** The four top-level children of the column. *)
Inductive Panel : Type :=
| Idle                         (* "Ready to Audit" and the Run button *)
| Running                      (* "Processing..." *)
| TransportFailed (reason : string)
| Result (blocks : list Block).

(** [audit.status === "warning" || audit.status === "error"] *)
Definition statusIsFailure (a : AuditResult) : bool :=
  match audit_status a with
  | Some s => String.eqb s "warning" || String.eqb s "error"
  | None => false
  end.

(** [flag.startsWith("DENIED")] *)
Definition isDenied (flag : string) : bool := startsWith flag "DENIED".

(** [x && x.length > 0] on an optional array. *)
Definition nonEmptyList (o : option (list string)) : option (list string) :=
  match o with
  | Some (x :: l) => Some (x :: l)
  | _ => None
  end.

(** [x && ...] on an optional string: the string when it is truthy. *)
Definition whenTruthy (o : option string) : option string :=
  match o with
  | Some s => if truthy s then Some s else None
  | None => None
  end.

(** The alert list of the warning/error branch: [<li>{flag}</li>]. *)
Definition plainAlerts (flags : list string) : list AlertItem :=
  map (fun flag => mkItem false flag) flags.

(** The alert list of the verdict branch:
    [<li>{isDenied && <span>[DENIED] </span>}{flag}</li>]. *)
Definition markedAlerts (flags : list string) : list AlertItem :=
  map (fun flag => mkItem (isDenied flag) flag) flags.

(** First arm of the conditional chain. *)
Definition renderPipeline (a : AuditResult) : list Block :=
  StatusBox (audit_status a) (message a)
  :: match nonEmptyList (coding_flags a) with
     | Some flags => [CodingAlerts (plainAlerts flags)]
     | None => []
     end.

(** Last arm of the conditional chain. *)
Definition renderVerdict (a : AuditResult) : list Block :=
  VerdictBox (verdict a) (whenTruthy (step_failed a)) (reasoning a)
             (whenTruthy (policy_source a))
  :: match confidence_score a with
     | Some n => [Confidence (showZ n +:+ "%")]
     | None => []
     end
  ++ match nonEmptyList (coding_flags a) with
     | Some flags => [CodingAlerts (markedAlerts flags)]
     | None => []
     end
  ++ match nonEmptyList (missing_criteria a) with
     | Some items => [MissingCriteria items]
     | None => []
     end
  ++ match whenTruthy (suggested_fix a) with
     | Some text => [SuggestedAction text]
     | None => []
     end.

(** The parts of the last arm that follow the verdict box. *)
Definition verdictExtras (a : AuditResult) : list Block :=
  tl (renderVerdict a).

(** The children of the result [<div>]:
    [status test ? ... : audit.raw_output ? ... : ...]. *)
Definition renderResult (a : AuditResult) : list Block :=
  if statusIsFailure a then renderPipeline a
  else match whenTruthy (raw_output a) with
       | Some text => [RawOutput text]
       | None => renderVerdict a
       end.

(** The three shapes of a result, and the arm of the chain a response
    takes. *)
Inductive Variant : Type :=
| PipelineFailure
| RawFallback
| StructuredVerdict.

Definition classify (a : AuditResult) : Variant :=
  if statusIsFailure a then PipelineFailure
  else if truthyOpt (raw_output a) then RawFallback
  else StructuredVerdict.

(** *** State cells of the component *)

Record State : Type := mkState {
  routeId : string;                  (* [params.id] *)
  claim : option Claim;
  loading : bool;
  error : option string;
  audit : option AuditResult;
  auditing : bool;
  auditError : option string
}.

Definition setClaim (v : option Claim) (s : State) : State :=
  mkState (routeId s) v (loading s) (error s) (audit s) (auditing s)
          (auditError s).
Definition setLoading (v : bool) (s : State) : State :=
  mkState (routeId s) (claim s) v (error s) (audit s) (auditing s)
          (auditError s).
Definition setError (v : option string) (s : State) : State :=
  mkState (routeId s) (claim s) (loading s) v (audit s) (auditing s)
          (auditError s).
Definition setAudit (v : option AuditResult) (s : State) : State :=
  mkState (routeId s) (claim s) (loading s) (error s) v (auditing s)
          (auditError s).
Definition setAuditing (v : bool) (s : State) : State :=
  mkState (routeId s) (claim s) (loading s) (error s) (audit s) v
          (auditError s).
Definition setAuditError (v : option string) (s : State) : State :=
  mkState (routeId s) (claim s) (loading s) (error s) (audit s)
          (auditing s) v.
Definition setRouteId (v : string) (s : State) : State :=
  mkState v (claim s) (loading s) (error s) (audit s) (auditing s)
          (auditError s).

(** The cells at mount, for the route parameter [i]. *)
Definition mount (i : string) : State :=
  mkState i None true None None false None.

(** *** Requests *)

(** What a [catch] clause receives. *)
Inductive Thrown : Type :=
| ErrorObject (msg : string)
| OtherValue.

(** How a request ends: [fetch] rejects, or a response with a status
    code arrives, whose body [res.json()] parses or fails to parse. *)
Inductive Settled (A : Type) : Type :=
| Rejected (e : Thrown)
| Responded (httpStatus : Z) (body : Thrown + A).
Arguments Rejected {A} e.
Arguments Responded {A} httpStatus body.

(** [res.ok] *)
Definition ok (httpStatus : Z) : bool :=
  (200 <=? httpStatus)%Z && (httpStatus <=? 299)%Z.

(** [err instanceof Error ? err.message : fallback] *)
Definition messageOf (e : Thrown) (fallback : string) : string :=
  match e with
  | ErrorObject m => m
  | OtherValue => fallback
  end.

(** The [try] block after the request has settled: the parsed body, or
    what is thrown. *)
Definition tryBody {A : Type} (failure : string) (r : Settled A)
  : Thrown + A :=
  match r with
  | Rejected e => inl e
  | Responded st body =>
      if ok st then body
      else inl (ErrorObject (failure +:+ " (" +:+ showZ st +:+ ")"))
  end.

(** [fetchClaim], from the arrival of the answer on.  The parsed body is
    taken to be a claim record, as [setClaim] is typed; a body that is
    [null] or of another shape is outside this model. *)
Definition fetchClaim_settle (r : Settled Claim) (s : State) : State :=
  match tryBody "Claim not found" r with
  | inr data => setLoading false (setClaim (Some data) s)
  | inl err =>
      setLoading false
        (setError (Some (messageOf err "Failed to load claim")) s)
  end.

(** [runAudit] up to its first [await]. *)
Definition runAudit_begin (s : State) : State :=
  setAudit None (setAuditError None (setAuditing true s)).

(** [runAudit], from the arrival of the answer on.  The parsed body is
    taken to be an object, as [data: AuditResult] declares; a body that is
    [null] or not an object is outside this model. *)
Definition runAudit_settle (r : Settled AuditResult) (s : State) : State :=
  match tryBody "Verification failed" r with
  | inr data => setAuditing false (setAudit (Some data) s)
  | inl err =>
      setAuditing false
        (setAuditError (Some (messageOf err "Audit failed")) s)
  end.

(** *** What the component returns *)

(** A cell or field holds a value (is neither [null] nor [undefined]). *)
Definition present {A : Type} (o : option A) : bool :=
  match o with
  | Some _ => true
  | None => false
  end.

Definition showIdle (s : State) : bool :=
  negb (present (audit s)) && negb (auditing s)
  && negb (truthyOpt (auditError s)).
Definition showRunning (s : State) : bool := auditing s.
Definition showError (s : State) : bool := truthyOpt (auditError s).
Definition showResult (s : State) : bool :=
  present (audit s) && negb (auditing s).

(** The children of the "Verification Results" column, in order. *)
Definition verificationPanel (s : State) : list Panel :=
  (if showIdle s then [Idle] else [])
  ++ (if showRunning s then [Running] else [])
  ++ match whenTruthy (auditError s) with
     | Some reason => [TransportFailed reason]
     | None => []
     end
  ++ match audit s with
     | Some a => if negb (auditing s) then [Result (renderResult a)] else []
     | None => []
     end.

Inductive Screen : Type :=
| LoadingScreen
| ErrorScreen (reason : string)
| ClaimScreen (c : Claim) (verification : list Panel).

Definition view (s : State) : Screen :=
  if loading s then LoadingScreen
  else match whenTruthy (error s), claim s with
       | Some reason, _ => ErrorScreen reason
       | None, None => ErrorScreen "Claim not found"
       | None, Some c => ClaimScreen c (verificationPanel s)
       end.

Definition isIdle (p : Panel) : bool :=
  match p with
  | Idle => true
  | _ => false
  end.

(** The Run button is on screen: it is part of the idle panel only. *)
Definition runButtonShown (s : State) : bool :=
  match view s with
  | ClaimScreen _ panels => existsb isIdle panels
  | _ => false
  end.

(** *** The page and its outstanding requests *)

(** The component together with the requests it has sent and not yet
    seen settle; a request is named by the route parameter its URL was
    built from.  State updates made in one synchronous stretch of a
    handler are applied together (React batches them), so a handler
    contributes one transition per stretch between two [await]s. *)
Record System : Type := mkSystem {
  page : State;
  claimRequests : list string;
  auditRequests : list string
}.

Inductive Event : Type :=
| ClaimSettled (forId : string) (r : Settled Claim)
| RunClicked
| AuditSettled (forId : string) (r : Settled AuditResult)
| Navigated (newId : string).

(** Removes the first occurrence of [x], if there is one. *)
Fixpoint takeOut (x : string) (l : list string) : option (list string) :=
  match l with
  | [] => None
  | y :: l' =>
      if String.eqb x y then Some l'
      else option_map (cons y) (takeOut x l')
  end.

(** First render for the route parameter [i]: the effect has sent the
    request for the claim. *)
Definition initial (i : string) : System :=
  mkSystem (mount i) [i] [].

(** One event.  [RunClicked] needs the button on screen; a request can
    only settle while it is outstanding.  [Navigated] is a change of the
    route parameter under the mounted component, the case the effect's
    dependency list [[id]] provides for.  The pages themselves never
    cause it: the detail page is left through its links to the worklist
    and a claim is opened from there by [router.push], which mounts the
    page anew (see [Mounted]).  The branch is kept so that what is proved
    of every reachable state holds in that case as well. *)
Definition step (e : Event) (sys : System) : option System :=
  match e with
  | ClaimSettled forId r =>
      match takeOut forId (claimRequests sys) with
      | Some rest =>
          Some (mkSystem (fetchClaim_settle r (page sys)) rest
                         (auditRequests sys))
      | None => None
      end
  | RunClicked =>
      if runButtonShown (page sys)
      then Some (mkSystem (runAudit_begin (page sys)) (claimRequests sys)
                          (routeId (page sys) :: auditRequests sys))
      else None
  | AuditSettled forId r =>
      match takeOut forId (auditRequests sys) with
      | Some rest =>
          Some (mkSystem (runAudit_settle r (page sys))
                         (claimRequests sys) rest)
      | None => None
      end
  | Navigated newId =>
      if String.eqb newId (routeId (page sys)) then None
      else Some (mkSystem (setRouteId newId (page sys))
                          (newId :: claimRequests sys)
                          (auditRequests sys))
  end.

Fixpoint run (evs : list Event) (sys : System) : option System :=
  match evs with
  | [] => Some sys
  | e :: evs' =>
      match step e sys with
      | Some sys' => run evs' sys'
      | None => None
      end
  end.

Inductive reachable : System -> Prop :=
| reach_initial (i : string) : reachable (initial i)
| reach_step (sys sys' : System) (e : Event) :
    reachable sys -> step e sys = Some sys' -> reachable sys'.

(** While the audit is in progress there is one outstanding request and
    neither result nor error; otherwise there is no outstanding request
    and not both a result and an error. *)
Definition auditInvariant (sys : System) : Prop :=
  if auditing (page sys)
  then audit (page sys) = None /\ auditError (page sys) = None
       /\ exists i, auditRequests sys = [i]
  else auditRequests sys = []
       /\ (audit (page sys) = None \/ auditError (page sys) = None).

(** How many of "audit in progress", "transport error present" and
    "audit result present" hold. *)
Definition busyCount (s : State) : nat :=
  (if auditing s then 1 else 0)
  + (if present (auditError s) then 1 else 0)
  + (if present (audit s) then 1 else 0).

(** How many of the four panels are on screen. *)
Definition panelCount (s : State) : nat :=
  (if showIdle s then 1 else 0) + (if showRunning s then 1 else 0)
  + (if showError s then 1 else 0) + (if showResult s then 1 else 0).

(** The three tests behind [classify], one per variant. *)
Definition isPipelineFailure (a : AuditResult) : bool := statusIsFailure a.
Definition isRawFallback (a : AuditResult) : bool :=
  negb (statusIsFailure a) && truthyOpt (raw_output a).
Definition isStructuredVerdict (a : AuditResult) : bool :=
  negb (statusIsFailure a) && negb (truthyOpt (raw_output a)).


End Detail.

(** ** The coloured version of the detail page *)

Module DetailStyled.
Import JsString.
Import Detail.

(** The alert list of the warning/error branch in this version: the
    classes of each [<li>] are chosen by
    [flag.startsWith("DENIED")] (red when set, amber otherwise);
    [deniedMark] records that choice. *)
Definition styledAlerts (flags : list string) : list AlertItem :=
  map (fun flag => mkItem (isDenied flag) flag) flags.

Definition renderPipeline (a : AuditResult) : list Block :=
  StatusBox (audit_status a) (message a)
  :: match nonEmptyList (coding_flags a) with
     | Some flags => [CodingAlerts (styledAlerts flags)]
     | None => []
     end.

End DetailStyled.

(** ** Concrete responses and sessions *)

Module Samples.
Import Detail.

(** [{status:"error", verdict:"APPROVED", raw_output:"x", ...}] *)
Definition errorWithVerdict : AuditResult :=
  mkAudit (Some "APPROVED") (Some 92%Z) (Some "Criteria met") None None
          None None None (Some "error") (Some "pipeline down") (Some "x").

(** [{status:"warning", message:"timeout",
      coding_flags:["DENIED:99213 mismatch"]}] *)
Definition warningWithDeniedFlag : AuditResult :=
  mkAudit None None None None None None (Some ["DENIED:99213 mismatch"])
          None (Some "warning") (Some "timeout") None.

(** [{verdict:"APPROVED", confidence_score:92, reasoning:"Criteria met",
      missing_criteria:[], suggested_fix:""}] *)
Definition approvedPlain : AuditResult :=
  mkAudit (Some "APPROVED") (Some 92%Z) (Some "Criteria met") (Some [])
          (Some "") None None None None None None.

(** [{verdict:"WARNING", confidence_score:0, reasoning:"Unclear",
      missing_criteria:[], suggested_fix:"", coding_flags:[]}] *)
Definition zeroConfidence : AuditResult :=
  mkAudit (Some "WARNING") (Some 0%Z) (Some "Unclear") (Some [])
          (Some "") None (Some []) None None None None.

(** The verdict for claim 7. *)
Definition deniedVerdict : AuditResult :=
  mkAudit (Some "DENIED") (Some 81%Z) (Some "No prior authorisation")
          (Some ["Prior authorisation"]) (Some "Request authorisation")
          None None None None None None.

Definition claimOf (n : Z) (patient : string) : Claim :=
  mkClaim n patient "Knee pain" None None "29881" None None None None
          None None None None None None None None None None None None
          None None "pending".

End Samples.

(** ** Upper-casing and the status label *)

Module JsUpper.
Import JsString.

(** [toUpperCase] on one code unit of the Latin-1 range.  The result is a
    sequence of code units, since it may leave the range or grow: [a]-[z]
    and the accented small letters U+00E0..U+00FE (the division sign U+00F7
    excepted) move down by 32, the micro sign U+00B5 becomes U+039C, the
    sharp s U+00DF becomes "SS", and U+00FF becomes U+0178; every other
    code unit is unchanged. *)
Definition upperChar (c : ascii) : list N :=
  let n := code c in
  if ((97 <=? n) && (n <=? 122))%N then [(n - 32)%N]
  else if (n =? 181)%N then [924%N]
  else if (n =? 223)%N then [83%N; 83%N]
  else if ((224 <=? n) && (n <=? 254) && negb (n =? 247))%N
       then [(n - 32)%N]
  else if (n =? 255)%N then [376%N]
  else [n].

(** [s.toUpperCase()], as code units. *)
Fixpoint toUpperCase (s : string) : list N :=
  match s with
  | EmptyString => []
  | String c s' => upperChar c ++ toUpperCase s'
  end.

(** The code units of a string. *)
Fixpoint codes (s : string) : list N :=
  match s with
  | EmptyString => []
  | String c s' => code c :: codes s'
  end.

(** What [getStatusText] returns: the upper-cased status, in bold black
    when [emphasised], in grey otherwise. *)
Record StatusText : Type := mkStatusText {
  emphasised : bool;
  label : list N
}.

(** [getStatusText(status)] (the same function in both pages). *)
Definition getStatusText (status : string) : StatusText :=
  let normalized := toUpperCase status in
  if bool_decide (normalized = codes "DENIED")
  then mkStatusText true normalized
  else mkStatusText false normalized.

End JsUpper.

(** ** The worklist page as a whole *)

Module Home.
Import JsString Worklist.

Record State : Type := mkState {
  claims : list Claim;
  filteredClaims : list Claim;
  loading : bool;
  error : option string;
  searchQuery : string
}.

Definition setClaims (v : list Claim) (s : State) : State :=
  mkState v (filteredClaims s) (loading s) (error s) (searchQuery s).
Definition setFilteredClaims (v : list Claim) (s : State) : State :=
  mkState (claims s) v (loading s) (error s) (searchQuery s).
Definition setLoading (v : bool) (s : State) : State :=
  mkState (claims s) (filteredClaims s) v (error s) (searchQuery s).
Definition setError (v : option string) (s : State) : State :=
  mkState (claims s) (filteredClaims s) (loading s) v (searchQuery s).
Definition setSearchQuery (v : string) (s : State) : State :=
  mkState (claims s) (filteredClaims s) (loading s) (error s) v.

(** The cells at mount. *)
Definition mount : State := mkState [] [] true None "".

(** The effect with dependencies [[searchQuery, claims]]. *)
Definition filterEffect (s : State) : State :=
  setFilteredClaims (filterClaims (claims s) (searchQuery s)) s.

(** [fetchClaims], from the arrival of the answer on.  The parsed body is
    taken to be an array of claim records, as [data: Claim[]] declares; a
    body of another shape is outside this model. *)
Definition fetchClaims_settle (r : Detail.Settled (list Claim)) (s : State)
  : State :=
  match Detail.tryBody "Failed to fetch claims" r with
  | inr data => setLoading false (setFilteredClaims data (setClaims data s))
  | inl err =>
      setLoading false
        (setError (Some (Detail.messageOf err "Failed to load claims")) s)
  end.

(** [handleRowClick(id)]: the route pushed to the router. *)
Definition handleRowClick (id : Z) : string := "/claim/" +:+ showZ id.

(** The body of the table. *)
Inductive TableBody : Type :=
| NoClaimsFound
| Rows (rows : list Claim).

Inductive Screen : Type :=
| LoadingScreen
| ErrorScreen (reason : string)
| WorklistScreen (query : string) (body : TableBody) (shown total : nat).

(** [filteredClaims.length === 0 ? <no claims row> : filteredClaims.map(...)] *)
Definition tableBody (rows : list Claim) : TableBody :=
  match rows with
  | [] => NoClaimsFound
  | _ :: _ => Rows rows
  end.

(** What the component returns; the last line of the page reads
    "Showing [shown] of [total] records". *)
Definition view (s : State) : Screen :=
  if loading s then LoadingScreen
  else match Detail.whenTruthy (error s) with
       | Some reason => ErrorScreen reason
       | None =>
           WorklistScreen (searchQuery s) (tableBody (filteredClaims s))
             (length (filteredClaims s)) (length (claims s))
       end.

(** The search box is on screen. *)
Definition searchBoxShown (s : State) : bool :=
  match view s with
  | WorklistScreen _ _ _ _ => true
  | _ => false
  end.

(** The page and whether its request for the claims is outstanding.  A
    transition is the update made by a handler followed by the run of the
    effect whose dependencies the update changed. *)
Record System : Type := mkSystem {
  page : State;
  pending : bool
}.

Inductive Event : Type :=
| ClaimsSettled (r : Detail.Settled (list Claim))
| Typed (value : string).

(** After the first render: the request is out, and the filter effect has
    run once. *)
Definition initial : System := mkSystem (filterEffect mount) true.

Definition step (e : Event) (sys : System) : option System :=
  match e with
  | ClaimsSettled r =>
      if pending sys
      then Some (mkSystem
                   (match Detail.tryBody "Failed to fetch claims" r with
                    | inr _ => filterEffect (fetchClaims_settle r (page sys))
                    | inl _ => fetchClaims_settle r (page sys)
                    end)
                   false)
      else None
  | Typed value =>
      if searchBoxShown (page sys)
      then Some (mkSystem
                   (if String.eqb value (searchQuery (page sys))
                    then page sys
                    else filterEffect (setSearchQuery value (page sys)))
                   (pending sys))
      else None
  end.

Fixpoint run (evs : list Event) (sys : System) : option System :=
  match evs with
  | [] => Some sys
  | e :: evs' =>
      match step e sys with
      | Some sys' => run evs' sys'
      | None => None
      end
  end.

Inductive reachable : System -> Prop :=
| reach_initial : reachable initial
| reach_step (sys sys' : System) (e : Event) :
    reachable sys -> step e sys = Some sys' -> reachable sys'.

(** What holds of every reachable state of the page. *)
Definition homeInvariant (sys : System) : Prop :=
  filteredClaims (page sys)
  = filterClaims (claims (page sys)) (searchQuery (page sys))
  /\ pending sys = loading (page sys)
  /\ (searchBoxShown (page sys) = false ->
      claims (page sys) = [] /\ searchQuery (page sys) = EmptyString)
  /\ (loading (page sys) = true -> error (page sys) = None).

(** *** Commit by commit

    The same page with the update of a handler and the run of the filter
    effect as two separate commits.  [stale] tells that a dependency of
    the effect has changed since it last ran, so that a run is due. *)
Record Commit : Type := mkCommit {
  shown : State;
  stale : bool;
  waiting : bool
}.

Inductive Happening : Type :=
| Answer (r : Detail.Settled (list Claim))
| Edit (value : string)
| Effect.


Definition commitStep (h : Happening) (c : Commit) : option Commit :=
  match h with
  | Answer r =>
      if waiting c
      then Some (mkCommit (fetchClaims_settle r (shown c))
                          (match Detail.tryBody "Failed to fetch claims" r with
                           | inr _ => true
                           | inl _ => stale c
                           end)
                          false)
      else None
  | Edit value =>
      if searchBoxShown (shown c)
      then Some (mkCommit (setSearchQuery value (shown c))
                          (stale c
                           || negb (String.eqb value (searchQuery (shown c))))
                          (waiting c))
      else None
  | Effect =>
      if stale c
      then Some (mkCommit (filterEffect (shown c)) false (waiting c))
      else None
  end.

Fixpoint commits (hs : list Happening) (c : Commit) : option Commit :=
  match hs with
  | [] => Some c
  | h :: hs' =>
      match commitStep h c with
      | Some c' => commits hs' c'
      | None => None
      end
  end.



(** The screen once the request for the claims has settled. *)
Definition settledScreen (r : Detail.Settled (list Claim)) : Screen :=
  match Detail.tryBody "Failed to fetch claims" r with
  | inr data => WorklistScreen "" (tableBody data) (length data) (length data)
  | inl err =>
      let msg := Detail.messageOf err "Failed to load claims" in
      if truthy msg then ErrorScreen msg
      else WorklistScreen "" NoClaimsFound 0 0
  end.

End Home.

(** ** Kinds of boxes in a result *)

Module Markup.
Import Detail.

Inductive Kind : Type :=
| KStatus | KAlerts | KRaw | KVerdict | KConfidence | KMissing | KSuggested.

Definition kindOf (b : Block) : Kind :=
  match b with
  | StatusBox _ _ => KStatus
  | CodingAlerts _ => KAlerts
  | RawOutput _ => KRaw
  | VerdictBox _ _ _ _ => KVerdict
  | Confidence _ => KConfidence
  | MissingCriteria _ => KMissing
  | SuggestedAction _ => KSuggested
  end.

(** The order in which the boxes of each variant can appear. *)
Definition template (v : Variant) : list Kind :=
  match v with
  | PipelineFailure => [KStatus; KAlerts]
  | RawFallback => [KRaw]
  | StructuredVerdict => [KVerdict; KConfidence; KAlerts; KMissing; KSuggested]
  end.

(** A box with the denied marking of its alerts taken off. *)
Definition unmark (b : Block) : Block :=
  match b with
  | CodingAlerts items =>
      CodingAlerts (map (fun it => mkItem false (alertText it)) items)
  | _ => b
  end.

(** The audit has come to an end that leaves something on screen: a
    result, or a failure with a reason. *)
Definition auditEnded (s : State) : bool :=
  negb (auditing s)
  && (present (audit s) || JsString.truthyOpt (auditError s)).

(** The screen a failed claim request leaves: the reason when there is
    one, the stock text otherwise. *)
Definition claimErrorScreen (err : Thrown) : Screen :=
  let msg := messageOf err "Failed to load claim" in
  if JsString.truthy msg then ErrorScreen msg
  else ErrorScreen "Claim not found".


End Markup.

(** ** One mounted detail view *)

Module Mounted.
Import Detail.

(** The events of a mounted view: the answers to its requests and the
    click on its button.  The view is left through [<Link href="/">]; a
    claim is opened by [handleRowClick] of the worklist, which mounts a
    view anew, in the state [initial]. *)
Definition viewEvent (e : Event) : bool :=
  match e with
  | Navigated _ => false
  | _ => true
  end.

(** The view mounted for claim [i] has gone through [evs] and is in
    [sys]. *)
Definition visit (i : string) (evs : list Event) (sys : System) : Prop :=
  forallb viewEvent evs = true /\ run evs (initial i) = Some sys.


(** [fetchClaim] from the arrival of a success answer whose body parses to
    [null]: [setClaim(null)], then [setLoading(false)]. *)
Definition fetchClaim_settle_null (s : State) : State :=
  setLoading false (setClaim None s).

(** What holds of a view mounted for claim [i]. *)
Definition mountedInvariant (i : string) (sys : System) : Prop :=
  routeId (page sys) = i
  /\ (forall x, In x (auditRequests sys) -> x = i)
  /\ if loading (page sys)
     then claimRequests sys = [i] /\ claim (page sys) = None
          /\ error (page sys) = None /\ audit (page sys) = None
          /\ auditing (page sys) = false /\ auditError (page sys) = None
          /\ auditRequests sys = []
     else claimRequests sys = []
          /\ (error (page sys) <> None ->
              claim (page sys) = None /\ audit (page sys) = None
              /\ auditing (page sys) = false
              /\ auditError (page sys) = None /\ auditRequests sys = []).

End Mounted.

(** ** More concrete inputs *)

Module MoreSamples.
Import Detail Samples.

(** Claim 7 is on screen and its audit has ended with a verdict. *)
Definition auditedSeven : System :=
  mkSystem (mkState "7" (Some (claimOf 7 "P7")) false None
                    (Some deniedVerdict) false None)
           [] [].

Definition auditedSevenTrace : list Event :=
  [ClaimSettled "7" (Responded 200 (inr (claimOf 7 "P7")));
   RunClicked;
   AuditSettled "7" (Responded 200 (inr deniedVerdict))].

(** Claim 7 is on screen and its audit is running. *)
Definition runningSeven : System :=
  mkSystem (mkState "7" (Some (claimOf 7 "P7")) false None None true None)
           [] ["7"].

Definition runningSevenTrace : list Event :=
  [ClaimSettled "7" (Responded 200 (inr (claimOf 7 "P7")));
   RunClicked].

(** The request for claim 7 has failed. *)
Definition failedSeven : System :=
  mkSystem (mkState "7" None false (Some "Claim not found (404)") None
                    false None)
           [] [].



(** The worklist after the claims have arrived and "p1" has been typed. *)
Definition typedP1Trace : list Home.Event :=
  [Home.ClaimsSettled
     (Responded 200
        (inr [Worklist.mkClaim 1 "P1" (Some "Acme") None None "pending";
              Worklist.mkClaim 2 "P2" (Some "Globex") None None "denied"]));
   Home.Typed "p1"].

Definition typedP1 : Home.System :=
  Home.mkSystem
    (Home.mkState
       [Worklist.mkClaim 1 "P1" (Some "Acme") None None "pending";
        Worklist.mkClaim 2 "P2" (Some "Globex") None None "denied"]
       [Worklist.mkClaim 1 "P1" (Some "Acme") None None "pending"]
       false None "p1")
    false.

(** The worklist after the request for the claims has failed. *)
Definition failedList : Home.System :=
  Home.mkSystem
    (Home.mkState [] [] false (Some "Failed to fetch claims (500)") "")
    false.

Definition twoClaims : list Worklist.Claim :=
  [Worklist.mkClaim 1 "P1" (Some "Acme") None None "pending";
   Worklist.mkClaim 2 "P2" (Some "Globex") None None "denied"].

End MoreSamples.

(** ** Facts about the string primitives *)

Module JsStringFacts.
Import JsString.

Lemma lowerChar_white (c : ascii) :
  isWhiteSpace (lowerChar c) = isWhiteSpace c.
Proof.
  destruct c as [[] [] [] [] [] [] [] []]; vm_compute; reflexivity.
Qed.

Lemma lowerChar_idem (c : ascii) : lowerChar (lowerChar c) = lowerChar c.
Proof.
  destruct c as [[] [] [] [] [] [] [] []]; vm_compute; reflexivity.
Qed.

Lemma toLowerCase_idem (s : string) :
  toLowerCase (toLowerCase s) = toLowerCase s.
Proof.
  induction s as [|c s IH]; simpl; [reflexivity|].
  now rewrite lowerChar_idem, IH.
Qed.

Lemma toLowerCase_trimStart (s : string) :
  toLowerCase (trimStart s) = trimStart (toLowerCase s).
Proof.
  induction s as [|c s IH]; simpl; [reflexivity|].
  rewrite lowerChar_white.
  destruct (isWhiteSpace c); [exact IH | reflexivity].
Qed.

Lemma toLowerCase_trimEnd (s : string) :
  toLowerCase (trimEnd s) = trimEnd (toLowerCase s).
Proof.
  induction s as [|c s IH]; simpl; [reflexivity|].
  rewrite <- IH, lowerChar_white.
  destruct (trimEnd s) as [|d t]; simpl.
  - destruct (isWhiteSpace c); reflexivity.
  - reflexivity.
Qed.

(** Lower-casing and trimming can be done in either order. *)
Lemma toLowerCase_trim (s : string) :
  toLowerCase (trim s) = trim (toLowerCase s).
Proof.
  unfold trim. now rewrite toLowerCase_trimEnd, toLowerCase_trimStart.
Qed.

Lemma trimStart_allWhite (s : string) :
  allWhite s = true -> trimStart s = EmptyString.
Proof.
  induction s as [|c s IH]; simpl; [reflexivity|].
  destruct (isWhiteSpace c); simpl; [exact IH | discriminate].
Qed.

Lemma trim_allWhite (s : string) :
  allWhite s = true -> trim s = EmptyString.
Proof.
  intros H. unfold trim. now rewrite (trimStart_allWhite s H).
Qed.

Lemma trimEnd_empty_allWhite (s : string) :
  trimEnd s = EmptyString -> allWhite s = true.
Proof.
  induction s as [|c s IH]; simpl; [reflexivity|].
  destruct (trimEnd s) as [|d t].
  - destruct (isWhiteSpace c); [intros _; now apply IH | discriminate].
  - discriminate.
Qed.

Lemma trimStart_keeps_allWhite (s : string) :
  allWhite (trimStart s) = true -> allWhite s = true.
Proof.
  induction s as [|c s IH]; simpl; [reflexivity|].
  destruct (isWhiteSpace c) eqn:E; simpl.
  - exact IH.
  - rewrite E. discriminate.
Qed.

(** [trim] gives the empty string exactly on strings of white space. *)
Lemma trim_empty_iff (s : string) :
  trim s = EmptyString <-> allWhite s = true.
Proof.
  split.
  - intros H. apply trimStart_keeps_allWhite.
    now apply trimEnd_empty_allWhite.
  - apply trim_allWhite.
Qed.

Lemma startsWith_iff (s p : string) :
  startsWith s p = true <-> exists post, s = p +:+ post.
Proof.
  unfold startsWith. revert s.
  induction p as [|a p IH]; intros s.
  - split; [intros _; now exists s | intros _; now destruct s].
  - destruct s as [|b s]; simpl.
    + split; [discriminate | intros [post H]; discriminate].
    + destruct (ascii_dec a b) as [->|Hne].
      * rewrite IH. split; intros [post H]; exists post.
        -- now rewrite H.
        -- now injection H.
      * split; [discriminate|].
        intros [post H]. injection H as H1 _. congruence.
Qed.

(** [includes] finds exactly the occurrences of the text. *)
Lemma includes_iff (s q : string) :
  includes s q = true <-> exists pre post, s = pre +:+ q +:+ post.
Proof.
  induction s as [|c s IH].
  - cbn [includes]. rewrite orb_false_r, startsWith_iff. split.
    + intros [post H]. now exists EmptyString, post.
    + intros [pre [post H]]. destruct pre; [now exists post | discriminate].
  - cbn [includes]. rewrite orb_true_iff, startsWith_iff, IH. split.
    + intros [[post H] | [pre [post H]]].
      * now exists EmptyString, post.
      * exists (String c pre), post. simpl. now rewrite H.
    + intros [pre [post H]]. destruct pre as [|d pre].
      * left. now exists post.
      * right. exists pre, post. simpl in H. now injection H.
Qed.

Lemma truthy_false_iff (s : string) : truthy s = false <-> s = EmptyString.
Proof. destruct s; simpl; split; congruence. Qed.

End JsStringFacts.

(** ** The worklist filter *)

Module WorklistFacts.
Import JsString JsStringFacts Worklist.

Lemma occursIn_empty (s : string) : occursIn EmptyString s.
Proof. now exists EmptyString, s. Qed.

Lemma occursIn_in_empty (q : string) :
  occursIn q EmptyString -> q = EmptyString.
Proof.
  intros [pre [post H]].
  destruct pre; [|discriminate]. destruct q; [reflexivity | discriminate].
Qed.

(** The callback decides the matching rule. *)
Lemma matchesQuery_iff (nq : string) (c : Claim) :
  matchesQuery nq c = true <-> specMatch nq c.
Proof.
  unfold matchesQuery, specMatch, occursIn.
  rewrite orb_true_iff, includes_iff. split.
  - intros [H | H]; [now left|].
    destruct (payer_name c) as [p|]; [|discriminate].
    apply andb_true_iff in H as [_ H]. apply includes_iff in H.
    right. now exists p.
  - intros [H | [p [Hp H]]]; [now left|].
    rewrite Hp. destruct p as [|a p].
    + left. apply occursIn_in_empty in H. subst nq.
      apply occursIn_empty.
    + right. change (truthy (String a p)) with true.
      rewrite andb_true_l. now apply includes_iff.
Qed.

(** The callback reads [patient_id] and [payer_name] only. *)
Lemma matchesQuery_fields (nq : string) (c c' : Claim) :
  patient_id c = patient_id c' -> payer_name c = payer_name c' ->
  matchesQuery nq c = matchesQuery nq c'.
Proof. unfold matchesQuery. now intros -> ->. Qed.

Lemma filter_sublist {A : Type} (f : A -> bool) (l : list A) :
  List.filter f l `sublist_of` l.
Proof.
  induction l as [|x l IH]; simpl.
  - constructor.
  - destruct (f x); now constructor.
Qed.

Lemma filter_all {A : Type} (f : A -> bool) (l : list A) :
  (forall x, f x = true) -> List.filter f l = l.
Proof.
  intros H. induction l as [|x l IH]; simpl; [reflexivity|].
  now rewrite H, IH.
Qed.

(** The effect always stores the claims picked by the callback; with an
    empty query the callback picks every claim. *)
Lemma filterClaims_filter (L : list Claim) (q : string) :
  filterClaims L q = List.filter (matchesQuery (toLowerCase (trim q))) L.
Proof.
  unfold filterClaims. rewrite <- toLowerCase_trim.
  destruct (toLowerCase (trim q)) as [|a nq] eqn:E; simpl; [|reflexivity].
  symmetry. apply filter_all. intros c.
  apply matchesQuery_iff. left. apply occursIn_empty.
Qed.

Example filter_by_patient :
  let L := [mkClaim 1 "P1" (Some "Acme") None None "pending";
            mkClaim 2 "P2" (Some "Globex") None None "denied"] in
  filterClaims L "p1" = [mkClaim 1 "P1" (Some "Acme") None None "pending"]
  /\ filterClaims L "  GLOB " = [mkClaim 2 "P2" (Some "Globex") None None "denied"]
  /\ filterClaims L "   " = L
  /\ filterClaims L "denied" = [].
Proof. repeat split; vm_compute; reflexivity. Qed.

(** C2.  For every claim list [L] and query [q], the stored list is an
    order-preserving sublist of [L]; it holds exactly the claims of [L]
    whose lower-cased [patient_id], or whose non-null lower-cased
    [payer_name], contains the trimmed and lower-cased query (so it is
    the filter of [L] by any test deciding that rule); a query that is
    empty or all white space leaves [L] unchanged; the empty list stays
    empty; queries that differ only in letter case give the same result;
    and two claims that agree on [patient_id] and [payer_name] are kept or
    dropped together, whatever their other fields. *)
Theorem filterClaims_spec (L : list Claim) (q : string) :
  filterClaims L q `sublist_of` L
  /\ (forall c, In c (filterClaims L q)
                <-> In c L /\ specMatch (toLowerCase (trim q)) c)
  /\ (forall f : Claim -> bool,
        (forall c, f c = true <-> specMatch (toLowerCase (trim q)) c) ->
        filterClaims L q = List.filter f L)
  /\ (allWhite q = true -> filterClaims L q = L)
  /\ filterClaims [] q = []
  /\ (forall q', toLowerCase q' = toLowerCase q ->
                 filterClaims L q' = filterClaims L q)
  /\ (forall c c', patient_id c = patient_id c' ->
                   payer_name c = payer_name c' ->
                   In c L -> In c' L ->
                   (In c (filterClaims L q) <-> In c' (filterClaims L q))).
Proof.
  repeat split.
  - rewrite filterClaims_filter. apply filter_sublist.
  - rewrite filterClaims_filter in H. now apply filter_In in H.
  - rewrite filterClaims_filter in H. apply filter_In in H as [_ H].
    now apply matchesQuery_iff.
  - intros [Hin Hm]. rewrite filterClaims_filter. apply filter_In.
    split; [exact Hin | now apply matchesQuery_iff].
  - intros f Hf. rewrite filterClaims_filter. apply filter_ext.
    intros c. destruct (f c) eqn:E.
    + now apply matchesQuery_iff, Hf.
    + destruct (matchesQuery (toLowerCase (trim q)) c) eqn:E'; [|reflexivity].
      apply matchesQuery_iff, Hf in E'. congruence.
  - intros Hw. unfold filterClaims.
    rewrite <- toLowerCase_trim, (trim_allWhite q Hw). reflexivity.
  - unfold filterClaims. now destruct (negb _).
  - intros q' Hq. unfold filterClaims. now rewrite Hq.
  - rewrite !filterClaims_filter, !filter_In. intros [_ Hm].
    split; [assumption|].
    now rewrite <- (matchesQuery_fields _ c c').
  - rewrite !filterClaims_filter, !filter_In. intros [_ Hm].
    split; [assumption|].
    now rewrite (matchesQuery_fields _ c c').
Qed.

End WorklistFacts.

(** ** Classification and markup of an audit result *)

Module ResultFacts.
Import JsString JsStringFacts Detail Samples.

Lemma statusIsFailure_iff (a : AuditResult) :
  statusIsFailure a = true
  <-> audit_status a = Some "warning" \/ audit_status a = Some "error".
Proof.
  unfold statusIsFailure. destruct (audit_status a) as [s|].
  - rewrite orb_true_iff, !String.eqb_eq. split.
    + intros [-> | ->]; auto.
    + intros [H | H]; injection H; auto.
  - split; [discriminate | intros [H | H]; discriminate].
Qed.

Lemma whenTruthy_Some (o : option string) (t : string) :
  whenTruthy o = Some t <-> o = Some t /\ t <> EmptyString.
Proof.
  destruct o as [[|c s]|]; simpl; split.
  - discriminate.
  - intros [H Hne]. injection H as <-. now destruct Hne.
  - intros H. injection H as <-. now split.
  - now intros [-> _].
  - discriminate.
  - now intros [H _].
Qed.

Lemma whenTruthy_None (o : option string) :
  whenTruthy o = None <-> o = None \/ o = Some EmptyString.
Proof.
  destruct o as [[|c s]|]; simpl; split; auto; try discriminate.
  intros [H | H]; discriminate.
Qed.

Lemma truthyOpt_whenTruthy (o : option string) :
  truthyOpt o = present (whenTruthy o).
Proof. now destruct o as [[|c s]|]. Qed.

(** The markup follows the arm [classify] names. *)
Lemma renderResult_classify (a : AuditResult) :
  renderResult a =
  match classify a with
  | PipelineFailure => renderPipeline a
  | RawFallback =>
      match raw_output a with
      | Some text => [RawOutput text]
      | None => []
      end
  | StructuredVerdict => renderVerdict a
  end.
Proof.
  unfold renderResult, classify.
  destruct (statusIsFailure a); [reflexivity|].
  now destruct (raw_output a) as [[|c s]|].
Qed.

(** The warning/error arm is made of the status box and at most one
    alert list. *)
Lemma renderPipeline_blocks (a : AuditResult) (b : Block) :
  In b (renderPipeline a) ->
  b = StatusBox (audit_status a) (message a)
  \/ exists flags, b = CodingAlerts (plainAlerts flags).
Proof.
  unfold renderPipeline. intros [<- | H]; [now left|].
  destruct (nonEmptyList (coding_flags a)) as [flags|]; [|destruct H].
  destruct H as [<- | []]. right. now exists flags.
Qed.

Lemma nonEmptyList_Some (o : option (list string)) (l : list string) :
  nonEmptyList o = Some l <-> o = Some l /\ l <> [].
Proof.
  destruct o as [[|x k]|]; simpl; split; try discriminate.
  - intros [H Hne]. injection H as <-. now destruct Hne.
  - intros H. injection H as <-. now split.
  - now intros [-> _].
  - now intros [H _].
Qed.

(** C1.  A response whose [status] is ["warning"] or ["error"] takes the
    first arm of the chain, whatever its other fields hold: it is
    classified as a pipeline failure, its markup is that of the
    warning/error arm, and neither the raw-output box nor the verdict box
    is produced, even with [raw_output] or [verdict] present. *)
Theorem status_wins (a : AuditResult) :
  audit_status a = Some "warning" \/ audit_status a = Some "error" ->
  classify a = PipelineFailure
  /\ renderResult a = renderPipeline a
  /\ hd_error (renderResult a) = Some (StatusBox (audit_status a) (message a))
  /\ (forall text, ~ In (RawOutput text) (renderResult a))
  /\ (forall l f r p, ~ In (VerdictBox l f r p) (renderResult a)).
Proof.
  intros H. apply statusIsFailure_iff in H.
  assert (Hr : renderResult a = renderPipeline a)
    by (unfold renderResult; now rewrite H).
  repeat split.
  - unfold classify. now rewrite H.
  - exact Hr.
  - now rewrite Hr.
  - intros text Hin. rewrite Hr in Hin.
    apply renderPipeline_blocks in Hin as [Hb | [flags Hb]]; discriminate.
  - intros l f r p Hin. rewrite Hr in Hin.
    apply renderPipeline_blocks in Hin as [Hb | [flags Hb]]; discriminate.
Qed.

Lemma status_wins_witness :
  classify errorWithVerdict = PipelineFailure
  /\ renderResult errorWithVerdict
     = [StatusBox (Some "error") (Some "pipeline down")].
Proof.
  destruct (status_wins errorWithVerdict) as [H1 [H2 _]].
  - right. reflexivity.
  - split; [exact H1 | rewrite H2; reflexivity].
Defined.

(** The classification is decided by [status] first: the pipeline-failure
    variant is chosen exactly for the two status words. *)
Lemma classify_PipelineFailure_iff (a : AuditResult) :
  classify a = PipelineFailure
  <-> audit_status a = Some "warning" \/ audit_status a = Some "error".
Proof.
  rewrite <- statusIsFailure_iff. unfold classify.
  destruct (statusIsFailure a); [tauto|].
  destruct (truthyOpt (raw_output a)); split; discriminate.
Qed.

(** C4.  A response takes the raw-output arm exactly when its [status] is
    neither ["warning"] nor ["error"] (absent included) and its
    [raw_output] is a non-empty string; the markup is then the single
    raw-output box holding that very string.  With [raw_output] absent or
    empty the arm is never taken. *)
Theorem raw_fallback_spec (a : AuditResult) :
  (classify a = RawFallback
   <-> audit_status a <> Some "warning" /\ audit_status a <> Some "error"
       /\ exists text, raw_output a = Some text /\ text <> EmptyString)
  /\ (forall text, classify a = RawFallback -> raw_output a = Some text ->
                   renderResult a = [RawOutput text])
  /\ (raw_output a = None \/ raw_output a = Some EmptyString ->
      classify a <> RawFallback
      /\ forall text, ~ In (RawOutput text) (renderResult a)).
Proof.
  assert (Hs : statusIsFailure a = false
               <-> audit_status a <> Some "warning"
                   /\ audit_status a <> Some "error").
  { rewrite <- not_true_iff_false, statusIsFailure_iff. tauto. }
  split; [|split].
  - unfold classify. destruct (statusIsFailure a) eqn:E.
    + split; [discriminate|]. intros [H1 [H2 _]].
      assert (true = false) by (apply Hs; auto). discriminate.
    + destruct (proj1 Hs eq_refl) as [H1 H2].
      destruct (raw_output a) as [[|c s]|]; simpl.
      * split; [discriminate|]. intros [_ [_ [t [Ht Hne]]]].
        injection Ht as <-. now destruct Hne.
      * split; [|reflexivity]. intros _. repeat split; auto.
        now exists (String c s).
      * split; [discriminate|]. intros [_ [_ [t [Ht _]]]]. discriminate.
  - intros text Hc Hr. rewrite renderResult_classify, Hc, Hr. reflexivity.
  - intros H. apply whenTruthy_None in H.
    assert (Hc : classify a <> RawFallback).
    { unfold classify. destruct (statusIsFailure a); [discriminate|].
      rewrite truthyOpt_whenTruthy, H. discriminate. }
    split; [exact Hc|]. intros text Hin.
    unfold renderResult in Hin. rewrite H in Hin.
    destruct (statusIsFailure a).
    + apply renderPipeline_blocks in Hin as [Hb | [flags Hb]]; discriminate.
    + unfold renderVerdict in Hin.
      destruct Hin as [Hb | Hin]; [discriminate|].
      repeat (apply in_app_or in Hin as [Hin | Hin]);
        repeat match goal with
               | H : In _ (match ?x with _ => _ end) |- _ => destruct x
               | H : In _ [_] |- _ => destruct H as [H | []]; discriminate
               | H : In _ [] |- _ => destruct H
               end.
Qed.

(** [{raw_output:"LLM parse failed"}] is shown as it is. *)
Example raw_fallback_example :
  let a := mkAudit None None None None None None None None None None
                   (Some "LLM parse failed") in
  classify a = RawFallback /\ renderResult a = [RawOutput "LLM parse failed"].
Proof. split; reflexivity. Qed.


(** *** The denied marking *)

Lemma isDenied_iff (s : string) :
  isDenied s = true <-> exists rest, s = "DENIED" +:+ rest.
Proof. unfold isDenied. apply startsWith_iff. Qed.

(** C5.  The denied test on a coding flag is the literal, case-sensitive
    prefix test: a flag is denied-class exactly when it is the six
    characters [DENIED] followed by anything; ["DENIED - mismatch"] is
    denied-class, ["Denied - mismatch"] is not; and the alert list of the
    verdict arm marks each flag by that test, keeping text and order. *)
Theorem isDenied_literal_prefix (s : string) :
  (isDenied s = true <-> exists rest, s = "DENIED" +:+ rest)
  /\ isDenied "DENIED - mismatch" = true
  /\ isDenied "Denied - mismatch" = false
  /\ (forall flags, map deniedMark (markedAlerts flags) = map isDenied flags
                    /\ map alertText (markedAlerts flags) = flags).
Proof.
  split; [apply isDenied_iff|].
  split; [reflexivity|]. split; [reflexivity|].
  intros flags. unfold markedAlerts. rewrite !map_map. simpl.
  split; [reflexivity | apply map_id].
Qed.

(** *** The warning/error arm *)

(** The warning/error arm lists every flag, in order, and marks none. *)
Lemma plainAlerts_unmarked (flags : list string) :
  map alertText (plainAlerts flags) = flags
  /\ forall it, In it (plainAlerts flags) -> deniedMark it = false.
Proof.
  unfold plainAlerts. split.
  - rewrite map_map. simpl. apply map_id.
  - intros it Hin. apply in_map_iff in Hin as [flag [<- _]]. reflexivity.
Qed.

(** The coloured version marks by the prefix test in this arm too. *)
Lemma styledAlerts_marked (flags : list string) :
  map alertText (DetailStyled.styledAlerts flags) = flags
  /\ map deniedMark (DetailStyled.styledAlerts flags) = map isDenied flags.
Proof.
  unfold DetailStyled.styledAlerts. rewrite !map_map. simpl.
  split; [apply map_id | reflexivity].
Qed.

(** C3.  The response [{status:"warning", message:"timeout",
    coding_flags:["DENIED:99213 mismatch"]}] is a pipeline failure and its
    flag begins with [DENIED], yet the warning/error arm of the page lists
    the flag without the denied marking; the verdict arm of the same page
    and the warning/error arm of the coloured version both mark it. *)
Theorem pipeline_denied_flag_unmarked :
  classify warningWithDeniedFlag = PipelineFailure
  /\ isDenied "DENIED:99213 mismatch" = true
  /\ renderResult warningWithDeniedFlag
     = [StatusBox (Some "warning") (Some "timeout");
        CodingAlerts [mkItem false "DENIED:99213 mismatch"]]
  /\ markedAlerts ["DENIED:99213 mismatch"]
     = [mkItem true "DENIED:99213 mismatch"]
  /\ DetailStyled.renderPipeline warningWithDeniedFlag
     = [StatusBox (Some "warning") (Some "timeout");
        CodingAlerts [mkItem true "DENIED:99213 mismatch"]].
Proof. repeat split; reflexivity. Qed.

(** *** The verdict arm *)

Lemma nonEmptyList_None (o : option (list string)) :
  nonEmptyList o = None <-> o = None \/ o = Some [].
Proof.
  destruct o as [[|x k]|]; simpl; split; auto; try discriminate.
  intros [H | H]; discriminate.
Qed.

Lemma renderVerdict_cons (a : AuditResult) :
  renderVerdict a
  = VerdictBox (verdict a) (whenTruthy (step_failed a)) (reasoning a)
               (whenTruthy (policy_source a))
    :: verdictExtras a.
Proof. reflexivity. Qed.

Ltac split_extras a :=
  unfold verdictExtras, renderVerdict; cbn [tl];
  rewrite !in_app_iff;
  destruct (confidence_score a) as [n|] eqn:Econf;
  destruct (nonEmptyList (coding_flags a)) as [flags|] eqn:Eflags;
  destruct (nonEmptyList (missing_criteria a)) as [crit|] eqn:Ecrit;
  destruct (whenTruthy (suggested_fix a)) as [sfix|] eqn:Efix;
  cbn [In];
  try (apply nonEmptyList_Some in Eflags as [Eflags Nflags]);
  try (apply nonEmptyList_None in Eflags);
  try (apply nonEmptyList_Some in Ecrit as [Ecrit Ncrit]);
  try (apply nonEmptyList_None in Ecrit);
  try (apply whenTruthy_Some in Efix as [Efix Nfix]);
  try (apply whenTruthy_None in Efix).

Ltac extras_solve :=
  repeat match goal with
         | |- _ <-> _ => split
         | |- ~ _ => intros ?
         | |- _ -> _ => intros ?
         | H : _ \/ _ |- _ => destruct H
         | H : _ /\ _ |- _ => destruct H
         | H : exists _, _ |- _ => destruct H
         | H : False |- _ => destruct H
         | H : Some _ = Some _ |- _ => injection H as H; subst
         | H : _ = _ |- _ => discriminate H
         | H1 : ?o = Some _, H2 : ?o = _ |- _ => rewrite H1 in H2
         | H : Confidence _ = Confidence _ |- _ => injection H as H; subst
         | H : CodingAlerts _ = CodingAlerts _ |- _ => injection H as H; subst
         | H : MissingCriteria _ = MissingCriteria _ |- _ =>
             injection H as H; subst
         | H : SuggestedAction _ = SuggestedAction _ |- _ =>
             injection H as H; subst
         end;
  subst; try congruence; try tauto; eauto 8.

Lemma extras_Confidence (a : AuditResult) (t : string) :
  In (Confidence t) (verdictExtras a)
  <-> exists n, confidence_score a = Some n /\ t = showZ n +:+ "%".
Proof. split_extras a; extras_solve. Qed.

Lemma extras_CodingAlerts (a : AuditResult) (items : list AlertItem) :
  In (CodingAlerts items) (verdictExtras a)
  <-> exists flags, coding_flags a = Some flags /\ flags <> []
                    /\ items = markedAlerts flags.
Proof. split_extras a; extras_solve. Qed.

Lemma extras_MissingCriteria (a : AuditResult) (items : list string) :
  In (MissingCriteria items) (verdictExtras a)
  <-> missing_criteria a = Some items /\ items <> [].
Proof. split_extras a; extras_solve. Qed.

Lemma extras_SuggestedAction (a : AuditResult) (t : string) :
  In (SuggestedAction t) (verdictExtras a)
  <-> suggested_fix a = Some t /\ t <> EmptyString.
Proof. split_extras a; extras_solve. Qed.

Lemma extras_no_VerdictBox (a : AuditResult) (l f r p : option string) :
  ~ In (VerdictBox l f r p) (verdictExtras a).
Proof. split_extras a; extras_solve. Qed.



Lemma structured_In (a : AuditResult) (b : Block) :
  classify a = StructuredVerdict ->
  (In b (renderResult a)
   <-> b = VerdictBox (verdict a) (whenTruthy (step_failed a))
                      (reasoning a) (whenTruthy (policy_source a))
       \/ In b (verdictExtras a)).
Proof.
  intros Hc. rewrite renderResult_classify, Hc, renderVerdict_cons.
  cbn [In]. split; intros [H | H]; auto.
Qed.




(** The example of the specification: verdict, reasoning and confidence
    are shown, the two empty sections are not. *)
Example approvedPlain_render :
  renderResult approvedPlain
  = [VerdictBox (Some "APPROVED") None (Some "Criteria met") None;
     Confidence "92%"].
Proof. reflexivity. Qed.

(** C10.  In the verdict arm the guards differ by type: the confidence
    box is shown for every score that is not null, the score 0 included
    (as "0%"), whereas the suggested action is shown only for a non-empty
    string, and the alert list and the missing-criteria list only for a
    non-empty array: an empty string or an empty array that is present is
    dropped like a missing one. *)
Theorem verdict_guards_asymmetric (a : AuditResult) :
  classify a = StructuredVerdict ->
  (forall n, confidence_score a = Some n ->
             In (Confidence (showZ n +:+ "%")) (renderResult a))
  /\ (confidence_score a = Some 0%Z -> In (Confidence "0%") (renderResult a))
  /\ ((exists t, In (Confidence t) (renderResult a))
      <-> confidence_score a <> None)
  /\ ((exists t, In (SuggestedAction t) (renderResult a))
      <-> exists t, suggested_fix a = Some t /\ t <> EmptyString)
  /\ ((exists items, In (CodingAlerts items) (renderResult a))
      <-> exists flags, coding_flags a = Some flags /\ flags <> [])
  /\ ((exists items, In (MissingCriteria items) (renderResult a))
      <-> exists items, missing_criteria a = Some items /\ items <> []).
Proof.
  intros Hc.
  assert (Hconf : forall n, confidence_score a = Some n ->
                   In (Confidence (showZ n +:+ "%")) (renderResult a)).
  { intros n Hn. apply structured_In; [exact Hc|]. right.
    apply extras_Confidence. now exists n. }
  split; [exact Hconf|].
  split; [intros H0; exact (Hconf 0%Z H0)|].
  split; [|split; [|split]].
  - split.
    + intros [t Hin]. apply (structured_In _ _ Hc) in Hin as [Hin | Hin];
        [discriminate Hin|].
      apply extras_Confidence in Hin as [n [Hn _]]. congruence.
    + destruct (confidence_score a) as [n|] eqn:E; [|congruence].
      intros _. exists (showZ n +:+ "%"). now apply Hconf.
  - split.
    + intros [t Hin]. apply (structured_In _ _ Hc) in Hin as [Hin | Hin];
        [discriminate Hin|].
      apply extras_SuggestedAction in Hin. now exists t.
    + intros [t Ht]. exists t. apply structured_In; [exact Hc|]. right.
      now apply extras_SuggestedAction.
  - split.
    + intros [items Hin]. apply (structured_In _ _ Hc) in Hin as [Hin | Hin];
        [discriminate Hin|].
      apply extras_CodingAlerts in Hin as [flags [Hf [Hne _]]].
        now exists flags.
    + intros [flags [Hf Hne]]. exists (markedAlerts flags).
      apply structured_In; [exact Hc|]. right.
      apply extras_CodingAlerts. now exists flags.
  - split.
    + intros [items Hin]. apply (structured_In _ _ Hc) in Hin as [Hin | Hin];
        [discriminate Hin|].
      apply extras_MissingCriteria in Hin. now exists items.
    + intros [items Hi]. exists items. apply structured_In; [exact Hc|].
      right. now apply extras_MissingCriteria.
Qed.

Lemma verdict_guards_witness :
  In (Confidence "0%") (renderResult zeroConfidence)
  /\ ~ (exists t, In (SuggestedAction t) (renderResult zeroConfidence))
  /\ ~ (exists items, In (CodingAlerts items) (renderResult zeroConfidence)).
Proof.
  destruct (verdict_guards_asymmetric zeroConfidence eq_refl)
    as [_ [H0 [_ [Hfix [Hflags _]]]]].
  split; [exact (H0 eq_refl)|]. split.
  - intros H. apply Hfix in H as [t [Ht Hne]].
    injection Ht as <-. now apply Hne.
  - intros H. apply Hflags in H as [flags [Hf Hne]].
    injection Hf as <-. now apply Hne.
Defined.

End ResultFacts.

(** ** The audit state machine *)

Module SessionFacts.
Import JsString JsStringFacts Detail Samples.

(** C6.  Whatever the cells hold before (a result, an error, both or
    neither), after the synchronous part of [runAudit] the audit is in
    progress, no result and no error are held, the column shows the
    running panel and nothing else, and the cells of the claim are
    untouched; a click on the Run button does exactly this and records
    the request as outstanding. *)
Theorem runAudit_begin_clears (s : State) :
  auditing (runAudit_begin s) = true
  /\ audit (runAudit_begin s) = None
  /\ auditError (runAudit_begin s) = None
  /\ verificationPanel (runAudit_begin s) = [Running]
  /\ (routeId (runAudit_begin s), claim (runAudit_begin s),
      loading (runAudit_begin s), error (runAudit_begin s))
     = (routeId s, claim s, loading s, error s)
  /\ (forall sys sys', page sys = s -> step RunClicked sys = Some sys' ->
        page sys' = runAudit_begin s
        /\ auditRequests sys' = routeId s :: auditRequests sys).
Proof.
  repeat split.
  - subst s. unfold step in H0.
    destruct (runButtonShown (page sys)); [|discriminate].
    now injection H0 as <-.
  - subst s. unfold step in H0.
    destruct (runButtonShown (page sys)); [|discriminate].
    now injection H0 as <-.
Qed.

(** A result and an error left by an earlier run are both gone. *)
Example runAudit_begin_example :
  verificationPanel
    (runAudit_begin
       (mkState "7" (Some (claimOf 7 "P7")) false None
                (Some deniedVerdict) false (Some "Verification failed (500)")))
  = [Running].
Proof. reflexivity. Qed.

(** *** Invariant of the reachable states *)

Lemma runButtonShown_idle (s : State) :
  runButtonShown s = true -> auditing s = false.
Proof.
  unfold runButtonShown, view.
  destruct (loading s); [discriminate|].
  destruct (whenTruthy (error s)); [discriminate|].
  destruct (claim s); [|discriminate].
  unfold verificationPanel, showIdle, showRunning.
  destruct (auditing s); [|reflexivity].
  rewrite andb_false_r, andb_false_l. simpl.
  destruct (whenTruthy (auditError s)); simpl;
    destruct (audit s); simpl; discriminate.
Qed.

Lemma takeOut_singleton (x i : string) (rest : list string) :
  takeOut x [i] = Some rest -> rest = [].
Proof.
  simpl. destruct (String.eqb x i); [congruence | discriminate].
Qed.

Lemma fetchClaim_settle_audit (r : Settled Claim) (s : State) :
  audit (fetchClaim_settle r s) = audit s
  /\ auditing (fetchClaim_settle r s) = auditing s
  /\ auditError (fetchClaim_settle r s) = auditError s.
Proof.
  unfold fetchClaim_settle. now destruct (tryBody _ r).
Qed.

Lemma step_invariant (e : Event) (sys sys' : System) :
  auditInvariant sys -> step e sys = Some sys' -> auditInvariant sys'.
Proof.
  unfold auditInvariant. intros Inv Hstep.
  destruct e as [forId r | | forId r | newId]; simpl in Hstep.
  - destruct (takeOut forId (claimRequests sys)); [|discriminate].
    injection Hstep as <-. simpl.
    destruct (fetchClaim_settle_audit r (page sys)) as [-> [-> ->]].
    exact Inv.
  - destruct (runButtonShown (page sys)) eqn:E; [|discriminate].
    injection Hstep as <-. simpl.
    apply runButtonShown_idle in E. rewrite E in Inv.
    destruct Inv as [-> _]. repeat split. now exists (routeId (page sys)).
  - destruct (takeOut forId (auditRequests sys)) as [rest|] eqn:E;
      [|discriminate].
    injection Hstep as <-.
    destruct (auditing (page sys)).
    + destruct Inv as [Ha [He [i Hi]]]. rewrite Hi in E.
      apply takeOut_singleton in E. subst rest.
      unfold runAudit_settle.
      destruct (tryBody _ r); simpl; auto.
    + destruct Inv as [Hreq _]. rewrite Hreq in E. discriminate.
  - destruct (String.eqb newId (routeId (page sys))); [discriminate|].
    injection Hstep as <-. exact Inv.
Qed.

Lemma reachable_invariant (sys : System) :
  reachable sys -> auditInvariant sys.
Proof.
  induction 1 as [i | sys sys' e _ IH Hstep].
  - unfold auditInvariant. simpl. auto.
  - exact (step_invariant e sys sys' IH Hstep).
Qed.

Lemma run_reachable (evs : list Event) (sys sys' : System) :
  reachable sys -> run evs sys = Some sys' -> reachable sys'.
Proof.
  revert sys. induction evs as [|e evs IH]; intros sys Hr Hrun; simpl in Hrun.
  - now injection Hrun as <-.
  - destruct (step e sys) as [mid|] eqn:E; [|discriminate].
    apply (IH mid); [|exact Hrun]. exact (reach_step sys mid e Hr E).
Qed.

Lemma invariant_panels (sys : System) :
  auditInvariant sys ->
  panelCount (page sys) = 1 /\ busyCount (page sys) <= 1
  /\ exists p, verificationPanel (page sys) = [p].
Proof.
  unfold auditInvariant, panelCount, busyCount, verificationPanel,
    showIdle, showRunning, showError, showResult.
  destruct (auditing (page sys)).
  - intros [-> [-> _]]. simpl. repeat split; [lia|]. now exists Running.
  - intros [_ [-> | ->]].
    + destruct (auditError (page sys)) as [[|c m]|]; simpl;
        repeat split; try lia; eauto.
    + destruct (audit (page sys)) as [a|]; simpl;
        repeat split; try lia; eauto.
Qed.

Lemma variant_tests (a : AuditResult) :
  (if isPipelineFailure a then 1 else 0)
  + (if isRawFallback a then 1 else 0)
  + (if isStructuredVerdict a then 1 else 0) = 1
  /\ (classify a = PipelineFailure <-> isPipelineFailure a = true)
  /\ (classify a = RawFallback <-> isRawFallback a = true)
  /\ (classify a = StructuredVerdict <-> isStructuredVerdict a = true).
Proof.
  unfold isPipelineFailure, isRawFallback, isStructuredVerdict, classify.
  destruct (statusIsFailure a), (truthyOpt (raw_output a)); simpl;
    repeat split; intros; congruence.
Qed.

(** C9.  In every state reached from the first render by claim answers,
    clicks on the Run button, audit answers and changes of the route
    parameter, exactly one of the four panels (idle, running, transport
    failure, result) is on screen, and at most one of "audit in progress",
    "error held", "result held" is the case; and for every response
    exactly one of the three variant tests holds, the one [classify]
    names. *)
Theorem states_mutually_exclusive :
  (forall sys, reachable sys ->
     panelCount (page sys) = 1 /\ busyCount (page sys) <= 1
     /\ exists p, verificationPanel (page sys) = [p])
  /\ (forall a,
        (if isPipelineFailure a then 1 else 0)
        + (if isRawFallback a then 1 else 0)
        + (if isStructuredVerdict a then 1 else 0) = 1
        /\ (classify a = PipelineFailure <-> isPipelineFailure a = true)
        /\ (classify a = RawFallback <-> isRawFallback a = true)
        /\ (classify a = StructuredVerdict
            <-> isStructuredVerdict a = true)).
Proof.
  split.
  - intros sys Hr. apply invariant_panels. now apply reachable_invariant.
  - exact variant_tests.
Qed.


End SessionFacts.

(** ** The status label and the row link *)

Module CaseFacts.
Import JsString JsStringFacts JsUpper Home.

(** A character either upper-cases to the given letter of [DENI] alone and
    lower-cases like it, or does neither. *)
Lemma upperChar_letter (c d : ascii) :
  In d ["D"; "E"; "N"; "I"]%char ->
  (upperChar c = [code d] /\ lowerChar c = lowerChar d)
  \/ ((exists x rest, upperChar c = x :: rest /\ x <> code d)
      /\ lowerChar c <> lowerChar d).
Proof.
  intros Hd.
  repeat (destruct Hd as [<- | Hd]; [|]); try destruct Hd;
    destruct c as [[] [] [] [] [] [] [] []]; vm_compute;
    first [ left; split; reflexivity
          | right; split;
            [eexists; eexists; split; [reflexivity | discriminate]
            | discriminate] ].
Qed.

Lemma toUpperCase_letters (t s : string) :
  Forall (fun d => In d ["D"; "E"; "N"; "I"]%char) (list_ascii_of_string t) ->
  toUpperCase s = codes t <-> toLowerCase s = toLowerCase t.
Proof.
  revert s. induction t as [|d t IH]; intros s Ht.
  - destruct s as [|c s]; simpl; [tauto|].
    split; [|discriminate].
    destruct (upperChar_letter c "D") as [[-> _] | [[x [rest [-> _]]] _]];
      [simpl; auto | discriminate | discriminate].
  - simpl in Ht. inversion Ht as [|? ? Hd Ht']; subst.
    destruct s as [|c s]; simpl; [split; discriminate|].
    destruct (upperChar_letter c d Hd) as [[Hu Hl] | [[x [rest [Hu Hx]]] Hl]].
    + rewrite Hu, Hl. simpl. split.
      * intros H. injection H as H. apply (IH s Ht') in H. now rewrite H.
      * intros H. injection H as H. apply (IH s Ht') in H. now rewrite H.
    + rewrite Hu. simpl. split.
      * intros H. injection H as H _. contradiction.
      * intros H. injection H as H _. contradiction.
Qed.

(** X1.  The status is emphasised exactly when it spells "denied" in some
    mix of upper and lower case; the label is always the upper-cased
    status. *)
Theorem getStatusText_emphasis (status : string) :
  (emphasised (getStatusText status) = true
   <-> toLowerCase status = "denied")
  /\ label (getStatusText status) = toUpperCase status.
Proof.
  unfold getStatusText. split.
  - rewrite <- (toUpperCase_letters "DENIED" status).
    + case_bool_decide; cbn [emphasised]; split; congruence.
    + repeat constructor; simpl; tauto.
  - now case_bool_decide.
Qed.

Example getStatusText_examples :
  emphasised (getStatusText "Denied") = true
  /\ emphasised (getStatusText "denied ") = false
  /\ emphasised (getStatusText "approved") = false
  /\ label (getStatusText "approved") = codes "APPROVED".
Proof. repeat split; vm_compute; reflexivity. Qed.

Lemma showZ_inj (m n : Z) : showZ m = showZ n -> m = n.
Proof.
  unfold showZ. intros H.
  apply DecimalZ.to_int_inj.
  assert (Hp : forall z, NilZero.int_of_string (NilZero.string_of_int (Z.to_int z))
                         = Some (Z.to_int z)).
  { intros z. apply NilZero.isi; destruct z as [|p|p]; simpl; try discriminate.
    - intros E. injection E as E.
      now apply (DecimalPos.Unsigned.to_uint_nonnil p).
    - intros E. injection E as E.
      now apply (DecimalPos.Unsigned.to_uint_nonnil p). }
  assert (E : Some (Z.to_int m) = Some (Z.to_int n))
    by (rewrite <- !Hp; now rewrite H).
  now injection E.
Qed.

(** X2.  Rows of different claims lead to different routes, each route
    being "/claim/" followed by the decimal form of the claim id. *)
Theorem handleRowClick_distinct (m n : Z) :
  m <> n -> handleRowClick m <> handleRowClick n.
Proof.
  unfold handleRowClick. simpl. intros Hne H. injection H as H.
  now apply Hne, showZ_inj.
Qed.

Lemma handleRowClick_witness :
  handleRowClick 7 = "/claim/7" /\ handleRowClick 7 <> handleRowClick 70.
Proof.
  split; [reflexivity|]. apply (handleRowClick_distinct 7 70). discriminate.
Defined.

End CaseFacts.

(** ** Composition of filters *)

Module FilterFacts.
Import JsString JsStringFacts Worklist WorklistFacts MoreSamples.

Lemma filter_comm {A : Type} (f g : A -> bool) (l : list A) :
  List.filter f (List.filter g l) = List.filter g (List.filter f l).
Proof.
  induction l as [|x l IH]; simpl; [reflexivity|].
  destruct (f x) eqn:Ef, (g x) eqn:Eg; simpl;
    rewrite ?Ef, ?Eg, ?IH; reflexivity.
Qed.

Lemma filter_idem {A : Type} (f : A -> bool) (l : list A) :
  List.filter f (List.filter f l) = List.filter f l.
Proof.
  induction l as [|x l IH]; simpl; [reflexivity|].
  destruct (f x) eqn:Ef; simpl; rewrite ?Ef, ?IH; reflexivity.
Qed.

Lemma filter_sublist_impl {A : Type} (f g : A -> bool) (l : list A) :
  (forall x, f x = true -> g x = true) ->
  List.filter f l `sublist_of` List.filter g l.
Proof.
  intros H. induction l as [|x l IH]; simpl; [constructor|].
  destruct (f x) eqn:Ef.
  - rewrite (H x Ef). now constructor.
  - destruct (g x); [now constructor | exact IH].
Qed.

Lemma append_cons (x : ascii) (a b : string) :
  String x a +:+ b = String x (a +:+ b).
Proof. reflexivity. Qed.

Lemma append_assoc (a b c : string) : (a +:+ b) +:+ c = a +:+ b +:+ c.
Proof.
  induction a as [|x a IH]; [reflexivity|].
  now rewrite !append_cons, IH.
Qed.

Lemma occursIn_trans (a b c : string) :
  occursIn a b -> occursIn b c -> occursIn a c.
Proof.
  intros [p1 [s1 ->]] [p2 [s2 ->]].
  exists (p2 +:+ p1), (s1 +:+ s2). now rewrite !append_assoc.
Qed.

Lemma specMatch_mono (q1 q2 : string) (c : Claim) :
  occursIn q1 q2 -> specMatch q2 c -> specMatch q1 c.
Proof.
  intros H [Hm | [p [Hp Hm]]].
  - left. exact (occursIn_trans _ _ _ H Hm).
  - right. exists p. split; [exact Hp | exact (occursIn_trans _ _ _ H Hm)].
Qed.

(** X3.  Filtering twice by the same query changes nothing more, and
    filtering by two queries one after the other gives the same rows in
    either order. *)
Theorem filterClaims_compose (L : list Claim) (q1 q2 : string) :
  filterClaims (filterClaims L q1) q1 = filterClaims L q1
  /\ filterClaims (filterClaims L q1) q2 = filterClaims (filterClaims L q2) q1.
Proof.
  rewrite !filterClaims_filter. split.
  - apply filter_idem.
  - apply filter_comm.
Qed.

(** X4.  A query whose normal form (trimmed, lower-cased) contains the
    normal form of another selects a sublist of what the other selects:
    a longer query only narrows the table. *)
Theorem filterClaims_narrows (L : list Claim) (q1 q2 : string) :
  occursIn (toLowerCase (trim q1)) (toLowerCase (trim q2)) ->
  filterClaims L q2 `sublist_of` filterClaims L q1.
Proof.
  intros H. rewrite !filterClaims_filter. apply filter_sublist_impl.
  intros c Hc. apply matchesQuery_iff. apply matchesQuery_iff in Hc.
  exact (specMatch_mono _ _ c H Hc).
Qed.

Lemma filterClaims_narrows_witness :
  filterClaims twoClaims " Glob" `sublist_of` filterClaims twoClaims "LO".
Proof.
  apply (filterClaims_narrows twoClaims "LO" " Glob").
  exists "g", "b". reflexivity.
Defined.

Lemma toLowerCase_app (a b : string) :
  toLowerCase (a +:+ b) = toLowerCase a +:+ toLowerCase b.
Proof.
  induction a as [|x a IH]; [reflexivity|].
  rewrite append_cons. simpl. now rewrite IH.
Qed.

Lemma trimStart_app (a b : string) :
  allWhite a = false -> trimStart (a +:+ b) = trimStart a +:+ b.
Proof.
  induction a as [|x a IH]; [discriminate|].
  rewrite append_cons. simpl.
  destruct (isWhiteSpace x); simpl; [exact IH | reflexivity].
Qed.

Lemma trimEnd_app_prefix (u v : string) :
  exists post, trimEnd (u +:+ v) = trimEnd u +:+ post.
Proof.
  induction u as [|c u [post IH]].
  - now exists (trimEnd v).
  - rewrite append_cons. simpl. rewrite IH.
    destruct (trimEnd u) as [|d t]; rewrite ?append_cons.
    + destruct post as [|e post].
      * exists EmptyString. now destruct (isWhiteSpace c).
      * destruct (isWhiteSpace c).
        -- now exists (String c (String e post)).
        -- now exists (String e post).
    + now exists post.
Qed.

(** The normal form of a query occurs in the normal form of every query
    that extends it. *)
Lemma trim_extends (q ext : string) :
  occursIn (toLowerCase (trim q)) (toLowerCase (trim (q +:+ ext))).
Proof.
  destruct (allWhite q) eqn:E.
  - rewrite (trim_allWhite q E). apply occursIn_empty.
  - unfold trim. rewrite (trimStart_app q ext E).
    destruct (trimEnd_app_prefix (trimStart q) ext) as [post ->].
    rewrite toLowerCase_app.
    now exists EmptyString, (toLowerCase post).
Qed.

(** X5.  For queries and fields over the Latin-1 range of code units,
    typing further characters at the end of the query never brings back a
    row: the rows for the longer query are a sublist of the rows for the
    shorter one. *)
Theorem filterClaims_typing_narrows (L : list Claim) (q ext : string) :
  filterClaims L (q +:+ ext) `sublist_of` filterClaims L q.
Proof.
  rewrite !filterClaims_filter. apply filter_sublist_impl.
  intros c Hc. apply matchesQuery_iff. apply matchesQuery_iff in Hc.
  exact (specMatch_mono _ _ c (trim_extends q ext) Hc).
Qed.

Lemma truthy_toLowerCase (s : string) : truthy (toLowerCase s) = truthy s.
Proof. now destruct s. Qed.

(** X6.  The letter case of the fields does not matter: two claims whose
    [patient_id] and [payer_name] agree up to letter case are selected by
    the same queries. *)
Theorem matchesQuery_field_case (query : string) (c c' : Claim) :
  toLowerCase (patient_id c) = toLowerCase (patient_id c') ->
  option_map toLowerCase (payer_name c)
  = option_map toLowerCase (payer_name c') ->
  matchesQuery query c = matchesQuery query c'
  /\ forall q, filterClaims [c] q = [] <-> filterClaims [c'] q = [].
Proof.
  intros Hp Hn.
  assert (Hm : forall x, matchesQuery x c = matchesQuery x c').
  { intros x. unfold matchesQuery. rewrite Hp.
    destruct (payer_name c) as [p|], (payer_name c') as [p'|];
      simpl in Hn; try discriminate; [|reflexivity].
    injection Hn as Hn.
    now rewrite <- (truthy_toLowerCase p), <- (truthy_toLowerCase p'), Hn. }
  split; [apply Hm|].
  intros q. rewrite !filterClaims_filter. simpl. rewrite Hm.
  destruct (matchesQuery _ c'); split; congruence.
Qed.

Lemma matchesQuery_field_case_witness :
  matchesQuery "acme" (mkClaim 1 "p1" (Some "ACME") None None "pending")
  = matchesQuery "acme" (mkClaim 2 "P1" (Some "Acme") None None "denied").
Proof.
  apply (matchesQuery_field_case "acme"
           (mkClaim 1 "p1" (Some "ACME") None None "pending")
           (mkClaim 2 "P1" (Some "Acme") None None "denied"));
    reflexivity.
Defined.

End FilterFacts.

(** ** The worklist page as a state machine *)

Module HomeFacts.
Import JsString JsStringFacts Worklist WorklistFacts Home MoreSamples.

Lemma searchBoxShown_iff (s : State) :
  searchBoxShown s = true
  <-> loading s = false /\ Detail.whenTruthy (error s) = None.
Proof.
  unfold searchBoxShown, view.
  destruct (loading s); [split; [discriminate | intros [H _]; discriminate]|].
  destruct (Detail.whenTruthy (error s)); split; auto; try discriminate.
  intros [_ H]. discriminate.
Qed.

Lemma filterClaims_nil_query (L : list Claim) : filterClaims L "" = L.
Proof. reflexivity. Qed.

Lemma step_homeInvariant (e : Event) (sys sys' : System) :
  homeInvariant sys -> step e sys = Some sys' -> homeInvariant sys'.
Proof.
  unfold homeInvariant. intros [I1 [I2 [I3 I4]]] Hstep.
  destruct e as [r | value]; simpl in Hstep.
  - destruct (pending sys) eqn:Ep; [|discriminate].
    injection Hstep as <-. symmetry in I2.
    assert (Hbox : searchBoxShown (page sys) = false).
    { apply not_true_is_false. intros Hb.
      apply searchBoxShown_iff in Hb as [Hl _]. congruence. }
    destruct (I3 Hbox) as [Hc Hq]. specialize (I4 I2).
    unfold fetchClaims_settle.
    destruct (Detail.tryBody _ r) as [err | data]; simpl.
    + rewrite Hc, Hq, I1, Hc, Hq. repeat split; auto. discriminate.
    + rewrite Hq. repeat split; auto; try discriminate.
      unfold searchBoxShown, view in H. simpl in H. rewrite I4 in H.
      discriminate.
  - destruct (searchBoxShown (page sys)) eqn:Eb; [|discriminate].
    injection Hstep as <-. simpl.
    destruct (String.eqb value (searchQuery (page sys)));
      [repeat split; auto; congruence|].
    apply searchBoxShown_iff in Eb as [Hl Hw].
    split; [reflexivity|]. split; [exact I2|]. split; [|exact I4].
    unfold searchBoxShown, view. simpl. rewrite Hl, Hw. discriminate.
Qed.

Lemma reachable_homeInvariant (sys : System) :
  reachable sys -> homeInvariant sys.
Proof.
  induction 1 as [|sys sys' e _ IH Hstep].
  - unfold homeInvariant. simpl. auto.
  - exact (step_homeInvariant e sys sys' IH Hstep).
Qed.

Lemma home_run_reachable (evs : list Event) (sys sys' : System) :
  reachable sys -> run evs sys = Some sys' -> reachable sys'.
Proof.
  revert sys. induction evs as [|e evs IH]; intros sys Hr Hrun; simpl in Hrun.
  - now injection Hrun as <-.
  - destruct (step e sys) as [mid|] eqn:E; [|discriminate].
    apply (IH mid); [|exact Hrun]. exact (reach_step sys mid e Hr E).
Qed.

Lemma typedP1_reachable : reachable typedP1.
Proof.
  apply (home_run_reachable typedP1Trace initial); [constructor | reflexivity].
Qed.

Lemma failedList_reachable : reachable failedList.
Proof.
  apply (home_run_reachable [ClaimsSettled (Detail.Responded 500 (inl Detail.OtherValue))]
                       initial); [constructor | reflexivity].
Qed.





(** An edit of the settled page and the run of the effect that follows
    give together the transition of [step]. *)
Lemma step_is_two_commits (sys sys' : System) (value : string) :
  step (Typed value) sys = Some sys' ->
  value <> searchQuery (page sys) ->
  commits [Edit value; Effect] (mkCommit (page sys) false (pending sys))
  = Some (mkCommit (page sys') false (pending sys')).
Proof.
  intros Hstep Hne. simpl in *.
  destruct (searchBoxShown (page sys)); [|discriminate].
  apply String.eqb_neq in Hne. rewrite Hne in *. simpl.
  now injection Hstep as <-.
Qed.



(** X8.  When the query is edited, the page shows the edited query, the
    rows of the loaded claims that match it (or the "no claims" row when
    none does) and the two counts; the loaded claims stay as they are.  An
    empty query shows them all. *)
Theorem typing_refilters (sys sys' : System) (value : string) :
  reachable sys ->
  step (Typed value) sys = Some sys' ->
  claims (page sys') = claims (page sys)
  /\ view (page sys')
     = WorklistScreen value
         (tableBody (filterClaims (claims (page sys)) value))
         (length (filterClaims (claims (page sys)) value))
         (length (claims (page sys)))
  /\ (value = EmptyString -> filteredClaims (page sys') = claims (page sys)).
Proof.
  intros Hr Hstep.
  destruct (reachable_homeInvariant sys Hr) as [I1 _].
  simpl in Hstep.
  destruct (searchBoxShown (page sys)) eqn:Eb; [|discriminate].
  apply searchBoxShown_iff in Eb as [Hl Hw].
  injection Hstep as <-. simpl.
  destruct (String.eqb_spec value (searchQuery (page sys))) as [-> | Hne].
  - split; [reflexivity|]. unfold view. rewrite Hl, Hw, I1.
    split; [reflexivity|]. intros Hq. now rewrite Hq.
  - split; [reflexivity|]. unfold view. simpl. rewrite Hl, Hw.
    split; [reflexivity|]. now intros ->.
Qed.

Lemma typing_refilters_witness :
  exists sys', step (Typed "") typedP1 = Some sys'
               /\ filteredClaims (page sys') = claims (page typedP1).
Proof.
  exists (mkSystem (filterEffect (setSearchQuery "" (page typedP1))) false).
  split; [reflexivity|].
  apply (typing_refilters typedP1 _ "" typedP1_reachable eq_refl).
  reflexivity.
Defined.

Lemma loading_is_mount (sys : System) :
  reachable sys -> pending sys = true -> page sys = mount.
Proof.
  intros Hr Hp. destruct (reachable_homeInvariant sys Hr) as [I1 [I2 [I3 I4]]].
  rewrite Hp in I2. symmetry in I2.
  assert (Hbox : searchBoxShown (page sys) = false).
  { apply not_true_is_false. intros Hb.
    apply searchBoxShown_iff in Hb as [Hl _]. congruence. }
  destruct (I3 Hbox) as [Hc Hq]. specialize (I4 I2).
  rewrite Hc, Hq in I1.
  destruct (page sys) as [c f l e q]. simpl in *. now subst.
Qed.

(** X9.  The answer to the request for the claims decides the screen: a
    success answer whose body parses to an array of claim records is shown
    in full under an empty query;
    any failure shows the error screen with its reason (for a non-success
    status, "Failed to fetch claims" and the status code in brackets),
    except that a failure whose reason is empty leaves an empty worklist. *)
Theorem claims_answer_screen (sys sys' : System)
    (r : Detail.Settled (list Claim)) :
  reachable sys ->
  step (ClaimsSettled r) sys = Some sys' ->
  view (page sys') = settledScreen r
  /\ pending sys' = false
  /\ (forall st body, r = Detail.Responded st body -> Detail.ok st = false ->
        view (page sys')
        = ErrorScreen ("Failed to fetch claims (" +:+ showZ st +:+ ")")).
Proof.
  intros Hr Hstep. simpl in Hstep.
  destruct (pending sys) eqn:Ep; [|discriminate].
  rewrite (loading_is_mount sys Hr Ep) in Hstep.
  injection Hstep as <-. simpl.
  assert (Hv : view (match Detail.tryBody "Failed to fetch claims" r with
                     | inl _ => fetchClaims_settle r mount
                     | inr _ => filterEffect (fetchClaims_settle r mount)
                     end) = settledScreen r).
  { unfold settledScreen, fetchClaims_settle.
    destruct (Detail.tryBody _ r) as [err | data]; [|reflexivity].
    unfold view. simpl.
    now destruct (Detail.messageOf err "Failed to load claims"). }
  split; [exact Hv|]. split; [reflexivity|].
  intros st body -> Hok. rewrite Hv. unfold settledScreen. simpl.
  rewrite Hok. reflexivity.
Qed.

Lemma claims_answer_witness :
  view (page failedList) = ErrorScreen "Failed to fetch claims (500)".
Proof.
  exact (proj2 (proj2 (claims_answer_screen initial failedList
                         (Detail.Responded 500 (inl Detail.OtherValue))
                         reach_initial eq_refl))
               500%Z (inl Detail.OtherValue) eq_refl eq_refl).
Defined.

(** X10.  The claims are requested once: the request is outstanding
    exactly while the loading screen is up, nothing can be typed until it
    has settled, and after a failure with a reason no event of the page is
    possible any more: the error screen stays. *)
Theorem worklist_loads_once (sys : System) :
  reachable sys ->
  pending sys = loading (page sys)
  /\ (loading (page sys) = true ->
      view (page sys) = LoadingScreen
      /\ forall value, step (Typed value) sys = None)
  /\ (forall reason,
        loading (page sys) = false ->
        Detail.whenTruthy (error (page sys)) = Some reason ->
        view (page sys) = ErrorScreen reason
        /\ forall e, step e sys = None).
Proof.
  intros Hr. destruct (reachable_homeInvariant sys Hr) as [_ [I2 _]].
  split; [exact I2|]. split.
  - intros Hl. unfold view. rewrite Hl. split; [reflexivity|].
    intros value. simpl. unfold searchBoxShown, view. now rewrite Hl.
  - intros reason Hl Hw. unfold view. rewrite Hl, Hw. split; [reflexivity|].
    intros [r | value]; simpl.
    + now rewrite I2, Hl.
    + unfold searchBoxShown, view. now rewrite Hl, Hw.
Qed.

Lemma worklist_loads_once_witness :
  view (page failedList) = ErrorScreen "Failed to fetch claims (500)"
  /\ step (Typed "p1") failedList = None.
Proof.
  destruct (proj2 (proj2 (worklist_loads_once failedList failedList_reachable))
              "Failed to fetch claims (500)" eq_refl eq_refl) as [Hv Hs].
  split; [exact Hv | exact (Hs (Typed "p1"))].
Defined.

End HomeFacts.

(** ** Shape of the result markup *)

Module MarkupFacts.
Import JsString JsStringFacts Detail Samples Markup ResultFacts.

Ltac sublist_greedy :=
  repeat first [ apply sublist_nil | apply sublist_skip | apply sublist_cons ].

(** X11.  Whatever the response holds, its boxes are drawn from the list
    of its variant, in that order and each at most once, and the first box
    of the list (status box, raw output or verdict box) is always there:
    no box of another variant is ever mixed in. *)
Theorem result_layout (a : AuditResult) :
  map kindOf (renderResult a) `sublist_of` template (classify a)
  /\ hd_error (map kindOf (renderResult a)) = hd_error (template (classify a)).
Proof.
  unfold renderResult, classify, renderPipeline, renderVerdict.
  destruct (statusIsFailure a).
  - destruct (nonEmptyList (coding_flags a)); simpl;
      (split; [sublist_greedy | reflexivity]).
  - destruct (raw_output a) as [[|c s]|]; simpl;
      destruct (confidence_score a), (nonEmptyList (coding_flags a)),
        (nonEmptyList (missing_criteria a)), (whenTruthy (suggested_fix a));
      simpl; (split; [sublist_greedy | reflexivity]).
Qed.

(** X12.  For a response with status "warning" or "error" the markup is
    the status box with the status word and the message, followed, exactly
    when [coding_flags] is a non-empty array, by one list that holds the
    flags in their order; every other field of the response is ignored. *)
Theorem pipeline_markup (a : AuditResult) :
  statusIsFailure a = true ->
  (forall flags, coding_flags a = Some flags -> flags <> [] ->
     exists items,
       renderResult a
       = [StatusBox (audit_status a) (message a); CodingAlerts items]
       /\ map alertText items = flags)
  /\ (coding_flags a = None \/ coding_flags a = Some [] ->
      renderResult a = [StatusBox (audit_status a) (message a)])
  /\ (forall b, statusIsFailure b = true ->
        audit_status b = audit_status a -> message b = message a ->
        coding_flags b = coding_flags a ->
        renderResult b = renderResult a).
Proof.
  intros Hs. unfold renderResult. rewrite Hs. unfold renderPipeline.
  split; [|split].
  - intros flags Hf Hne.
    assert (E : nonEmptyList (coding_flags a) = Some flags)
      by (apply nonEmptyList_Some; auto).
    rewrite E. exists (plainAlerts flags). split; [reflexivity|].
    apply plainAlerts_unmarked.
  - intros H. apply nonEmptyList_None in H. now rewrite H.
  - intros b Hb E1 E2 E3. unfold renderResult, renderPipeline.
    now rewrite Hb, E1, E2, E3.
Qed.

(** X20.  The two versions of the page draw the warning/error arm alike
    up to the denied marking: same status box, same flags in the same
    order; the coloured version marks a flag exactly when it begins with
    "DENIED", the monochrome one marks none, so the two coincide when no
    flag begins with "DENIED". *)
Theorem pipeline_versions_agree (a : AuditResult) :
  map unmark (DetailStyled.renderPipeline a) = renderPipeline a
  /\ (forall items, In (CodingAlerts items) (DetailStyled.renderPipeline a) ->
        forall it, In it items -> deniedMark it = isDenied (alertText it))
  /\ ((forall flags flag, coding_flags a = Some flags -> In flag flags ->
         isDenied flag = false) ->
      DetailStyled.renderPipeline a = renderPipeline a).
Proof.
  unfold DetailStyled.renderPipeline, renderPipeline,
    DetailStyled.styledAlerts, plainAlerts.
  split; [|split].
  - destruct (nonEmptyList (coding_flags a)) as [flags|]; simpl;
      [|reflexivity].
    now rewrite map_map.
  - intros items [H | H]; [discriminate|].
    destruct (nonEmptyList (coding_flags a)) as [flags|]; [|destruct H].
    destruct H as [H | []]. injection H as <-.
    intros it Hin. apply in_map_iff in Hin as [flag [<- _]]. reflexivity.
  - intros Hno.
    destruct (nonEmptyList (coding_flags a)) as [flags|] eqn:E; [|reflexivity].
    apply nonEmptyList_Some in E as [E _].
    do 3 f_equal. apply map_ext_in. intros flag Hin.
    now rewrite (Hno flags flag E Hin).
Qed.

Lemma pipeline_markup_witness :
  renderResult errorWithVerdict
  = [StatusBox (Some "error") (Some "pipeline down")].
Proof.
  apply (proj1 (proj2 (pipeline_markup errorWithVerdict eq_refl))).
  now left.
Defined.

End MarkupFacts.

(** ** A view and the claim it was mounted for *)

Module MountedFacts.
Import JsString JsStringFacts Detail Samples MoreSamples Mounted.
Import ResultFacts SessionFacts.

Lemma takeOut_In (x : string) (l rest : list string) :
  takeOut x l = Some rest ->
  In x l /\ forall y, In y rest -> In y l.
Proof.
  revert rest. induction l as [|z l IH]; intros rest; simpl; [discriminate|].
  destruct (String.eqb_spec x z) as [-> | Hne].
  - intros H. injection H as <-. auto.
  - destruct (takeOut x l) as [rest'|]; simpl; [|discriminate].
    intros H. injection H as <-. destruct (IH rest' eq_refl) as [Hin Hsub].
    split; [now right|]. intros y [<- | Hy]; [now left | right; auto].
Qed.

Lemma runButtonShown_loaded (s : State) :
  runButtonShown s = true -> loading s = false /\ claim s <> None.
Proof.
  unfold runButtonShown, view.
  destruct (loading s); [discriminate|].
  destruct (whenTruthy (error s)); [discriminate|].
  destruct (claim s); [split; [reflexivity | discriminate] | discriminate].
Qed.

Lemma initial_mountedInvariant (i : string) : mountedInvariant i (initial i).
Proof.
  unfold mountedInvariant. simpl. repeat split; auto. intros x [].
Qed.

Lemma step_mountedInvariant (i : string) (e : Event) (sys sys' : System) :
  viewEvent e = true ->
  mountedInvariant i sys -> step e sys = Some sys' -> mountedInvariant i sys'.
Proof.
  unfold mountedInvariant. intros Hv [Hid [Hreq Hcase]] Hstep.
  destruct e as [forId r | | forId r | newId]; simpl in Hstep;
    [| | |discriminate Hv].
  - destruct (takeOut forId (claimRequests sys)) as [rest|] eqn:E;
      [|discriminate].
    injection Hstep as <-. simpl.
    destruct (fetchClaim_settle_audit r (page sys)) as [Ha [Hg He]].
    destruct (loading (page sys)) eqn:El.
    + destruct Hcase as [Hc [Hcl [Herr [Haud [Hing [Haerr Hreqs]]]]]].
      rewrite Hc in E. apply takeOut_singleton in E. subst rest.
      unfold fetchClaim_settle in *.
      destruct (tryBody "Claim not found" r); simpl in *.
      * split; [exact Hid|]. split; [exact Hreq|]. split; [reflexivity|].
        intros _. repeat split; assumption.
      * split; [exact Hid|]. split; [exact Hreq|]. split; [reflexivity|].
        intros Hne. rewrite Herr in Hne. now destruct Hne.
    + destruct Hcase as [Hc _]. rewrite Hc in E. discriminate.
  - destruct (runButtonShown (page sys)) eqn:Eb; [|discriminate].
    injection Hstep as <-. simpl.
    destruct (runButtonShown_loaded _ Eb) as [El Hcl].
    rewrite El in Hcase. destruct Hcase as [Hc Herr].
    rewrite El. split; [exact Hid|]. split.
    + intros x [<- | Hx]; [exact Hid | now apply Hreq].
    + split; [exact Hc|]. intros Hne. destruct (Herr Hne) as [H _].
      now destruct Hcl.
  - destruct (takeOut forId (auditRequests sys)) as [rest|] eqn:E;
      [|discriminate].
    injection Hstep as <-. simpl.
    destruct (takeOut_In _ _ _ E) as [Hin Hsub].
    destruct (loading (page sys)) eqn:El.
    + destruct Hcase as [_ [_ [_ [_ [_ [_ Hreqs]]]]]]. rewrite Hreqs in Hin.
      destruct Hin.
    + destruct Hcase as [Hc Herr].
      assert (Hnone : error (page sys) = None).
      { destruct (error (page sys)) eqn:Ee; [|reflexivity].
        destruct Herr as [_ [_ [_ [_ Hreqs]]]]; [discriminate|].
        rewrite Hreqs in Hin. destruct Hin. }
      unfold runAudit_settle.
      destruct (tryBody "Verification failed" r); simpl;
        rewrite El, Hnone;
        (split; [exact Hid|]; split; [intros x Hx; apply Hreq; auto|];
         split; [exact Hc|]; intros Hne; now destruct Hne).
Qed.

Lemma visit_from (i : string) (evs : list Event) (sys0 sys : System) :
  mountedInvariant i sys0 ->
  forallb viewEvent evs = true ->
  run evs sys0 = Some sys ->
  mountedInvariant i sys
  /\ forall a, audit (page sys) = Some a ->
       audit (page sys0) = Some a
       \/ exists r, In (AuditSettled i r) evs
                    /\ tryBody "Verification failed" r = inr a.
Proof.
  revert sys0. induction evs as [|e evs IH]; intros sys0 Hinv Hv Hrun;
    simpl in Hrun.
  - injection Hrun as <-. split; [exact Hinv | auto].
  - simpl in Hv. apply andb_true_iff in Hv as [He Hv].
    destruct (step e sys0) as [mid|] eqn:E; [|discriminate].
    assert (Hmid := step_mountedInvariant i e sys0 mid He Hinv E).
    destruct (IH mid Hmid Hv Hrun) as [Hsys Haud].
    split; [exact Hsys|]. intros a Ha.
    destruct (Haud a Ha) as [Hm | [r [Hin Hr]]];
      [|right; exists r; split; [now right | exact Hr]].
    destruct e as [forId r | | forId r | newId]; simpl in E.
    + destruct (takeOut forId (claimRequests sys0)); [|discriminate].
      injection E as <-. simpl in Hm. left.
      now rewrite <- (proj1 (fetchClaim_settle_audit r (page sys0))).
    + destruct (runButtonShown (page sys0)); [|discriminate].
      injection E as <-. discriminate Hm.
    + destruct (takeOut forId (auditRequests sys0)) as [rest|] eqn:Et;
        [|discriminate].
      injection E as <-. simpl in Hm.
      destruct Hinv as [_ [Hreq _]].
      assert (forId = i) as ->
        by (apply Hreq; exact (proj1 (takeOut_In _ _ _ Et))).
      unfold runAudit_settle in Hm.
      destruct (tryBody "Verification failed" r) as [err | data] eqn:Eb;
        simpl in Hm.
      * now left.
      * right. exists r. split; [now left|]. injection Hm as <-. exact Eb.
    + discriminate He.
Qed.

Lemma visit_invariant (i : string) (evs : list Event) (sys : System) :
  visit i evs sys -> mountedInvariant i sys.
Proof.
  intros [Hv Hrun].
  exact (proj1 (visit_from i evs (initial i) sys
                  (initial_mountedInvariant i) Hv Hrun)).
Qed.



(** X16.  A view requests its claim once: the request is outstanding
    exactly while the loading screen is up.  When it has failed with a
    reason, the error screen with that reason stays and no event of the
    view is possible any more: no audit can be started and there is no
    retry. *)
Theorem claim_load_failure_is_final
    (i : string) (evs : list Event) (sys : System) :
  forallb viewEvent evs = true ->
  run evs (initial i) = Some sys ->
  (if loading (page sys) then claimRequests sys = [i]
   else claimRequests sys = [])
  /\ (forall reason,
        loading (page sys) = false ->
        whenTruthy (error (page sys)) = Some reason ->
        view (page sys) = ErrorScreen reason
        /\ forall e, viewEvent e = true -> step e sys = None).
Proof.
  intros Hv Hrun.
  destruct (visit_invariant i evs sys (conj Hv Hrun)) as [_ [_ Hcase]].
  split.
  - destruct (loading (page sys)); tauto.
  - intros reason Hl Hw. rewrite Hl in Hcase. destruct Hcase as [Hc Herr].
    assert (Hne : error (page sys) <> None).
    { intros H. rewrite H in Hw. discriminate. }
    destruct (Herr Hne) as [_ [_ [_ [_ Hreqs]]]].
    split; [unfold view; now rewrite Hl, Hw|].
    intros [forId r | | forId r | newId] He; simpl.
    + now rewrite Hc.
    + unfold runButtonShown, view. now rewrite Hl, Hw.
    + now rewrite Hreqs.
    + discriminate He.
Qed.

Lemma claim_load_failure_witness :
  view (page failedSeven) = ErrorScreen "Claim not found (404)"
  /\ step RunClicked failedSeven = None.
Proof.
  destruct (proj2 (claim_load_failure_is_final "7"
                     [ClaimSettled "7" (Responded 404 (inl OtherValue))]
                     failedSeven eq_refl eq_refl)
              "Claim not found (404)" eq_refl eq_refl) as [Hview Hnone].
  split; [exact Hview | exact (Hnone RunClicked eq_refl)].
Defined.

End MountedFacts.

(** ** Life cycle of the detail page *)

Module LifecycleFacts.
Import JsString JsStringFacts Detail Samples MoreSamples Markup Mounted.
Import ResultFacts SessionFacts.

Lemma auditedSeven_reachable : reachable auditedSeven.
Proof.
  apply (run_reachable auditedSevenTrace (initial "7"));
    [apply reach_initial | reflexivity].
Qed.

Lemma runningSeven_reachable : reachable runningSeven.
Proof.
  apply (run_reachable runningSevenTrace (initial "7"));
    [apply reach_initial | reflexivity].
Qed.

(** The verification column is a function of the three audit cells. *)
Lemma verificationPanel_cells (s t : State) :
  audit s = audit t -> auditing s = auditing t ->
  auditError s = auditError t ->
  verificationPanel s = verificationPanel t.
Proof.
  intros H1 H2 H3.
  unfold verificationPanel, showIdle, showRunning. now rewrite H1, H2, H3.
Qed.

(** X13.  At most one audit request is ever outstanding, one is
    outstanding exactly while the audit is in progress, and the Run button
    is never on screen while one is. *)
Theorem one_audit_at_a_time (sys : System) :
  reachable sys ->
  length (auditRequests sys) <= 1
  /\ (auditing (page sys) = true <-> auditRequests sys <> [])
  /\ (runButtonShown (page sys) = true -> auditRequests sys = []).
Proof.
  intros Hr. apply reachable_invariant in Hr. unfold auditInvariant in Hr.
  split; [|split].
  - destruct (auditing (page sys)).
    + destruct Hr as [_ [_ [i ->]]]. simpl. lia.
    + destruct Hr as [-> _]. simpl. lia.
  - destruct (auditing (page sys)).
    + destruct Hr as [_ [_ [i ->]]]. split; [discriminate | reflexivity].
    + destruct Hr as [-> _]. split; [discriminate | congruence].
  - intros Hb. apply runButtonShown_idle in Hb. rewrite Hb in Hr. tauto.
Qed.

Lemma one_audit_witness :
  auditing (page runningSeven) = true <-> auditRequests runningSeven <> [].
Proof.
  exact (proj1 (proj2 (one_audit_at_a_time runningSeven
                         runningSeven_reachable))).
Defined.

(** X14.  In a mounted view, an audit that has ended with a result, or
    with a failure that has a reason, is final: from then on the Run
    button is not available, and no event of the view (an answer to a
    request, a click) changes what the verification column shows. *)
Theorem ended_audit_is_final (sys : System) :
  reachable sys ->
  auditEnded (page sys) = true ->
  step RunClicked sys = None
  /\ forall e sys', viewEvent e = true -> step e sys = Some sys' ->
       verificationPanel (page sys') = verificationPanel (page sys)
       /\ auditEnded (page sys') = true.
Proof.
  intros Hr He. apply reachable_invariant in Hr. unfold auditInvariant in Hr.
  unfold auditEnded in He. apply andb_true_iff in He as [Ha He].
  apply negb_true_iff in Ha. rewrite Ha in Hr. destruct Hr as [Hreq _].
  assert (Hb : runButtonShown (page sys) = false).
  { unfold runButtonShown, view.
    destruct (loading (page sys)); [reflexivity|].
    destruct (whenTruthy (error (page sys))); [reflexivity|].
    destruct (claim (page sys)); [|reflexivity].
    unfold verificationPanel, showIdle, showRunning. rewrite Ha.
    rewrite truthyOpt_whenTruthy in He. rewrite truthyOpt_whenTruthy.
    destruct (audit (page sys)), (whenTruthy (auditError (page sys)));
      simpl in *; try reflexivity; discriminate. }
  split; [simpl; now rewrite Hb|].
  intros e sys' Hview Hstep.
  assert (Hcells : audit (page sys') = audit (page sys)
                   /\ auditing (page sys') = auditing (page sys)
                   /\ auditError (page sys') = auditError (page sys)).
  { destruct e as [forId r | | forId r | newId]; simpl in Hstep.
    - destruct (takeOut forId (claimRequests sys)); [|discriminate].
      injection Hstep as <-. apply fetchClaim_settle_audit.
    - rewrite Hb in Hstep. discriminate.
    - rewrite Hreq in Hstep. discriminate.
    - discriminate Hview. }
  destruct Hcells as [H1 [H2 H3]]. split.
  - now apply verificationPanel_cells.
  - unfold auditEnded. rewrite H1, H2, H3, Ha. exact He.
Qed.

Lemma ended_audit_witness : step RunClicked auditedSeven = None.
Proof.
  exact (proj1 (ended_audit_is_final auditedSeven auditedSeven_reachable
                  eq_refl)).
Defined.



(** X17.  The first answer to the claim request decides the screen: a
    success answer whose body parses to a claim record gives that claim
    with the idle verification column; any failure gives the error screen with its
    reason, "Claim not found" with the status code in brackets for a
    non-success status, and the plain "Claim not found" when the reason is
    empty.  A success answer whose body parses to [null] gives the plain
    "Claim not found" as well. *)
Theorem first_claim_answer (i : string) (r : Settled Claim) :
  view (fetchClaim_settle r (mount i))
  = match tryBody "Claim not found" r with
    | inr data => ClaimScreen data [Idle]
    | inl err => claimErrorScreen err
    end
  /\ (forall st body, r = Responded st body -> ok st = false ->
        view (fetchClaim_settle r (mount i))
        = ErrorScreen ("Claim not found (" +:+ showZ st +:+ ")"))
  /\ view (mount i) = LoadingScreen
  /\ view (fetchClaim_settle_null (mount i)) = ErrorScreen "Claim not found".
Proof.
  assert (Hv : view (fetchClaim_settle r (mount i))
               = match tryBody "Claim not found" r with
                 | inr data => ClaimScreen data [Idle]
                 | inl err => claimErrorScreen err
                 end).
  { unfold fetchClaim_settle, claimErrorScreen.
    destruct (tryBody "Claim not found" r) as [err | data]; [|reflexivity].
    unfold view. simpl. now destruct (messageOf err "Failed to load claim"). }
  split; [exact Hv|]. split; [|split; reflexivity].
  intros st body -> Hok. rewrite Hv. simpl. rewrite Hok. reflexivity.
Qed.

(** X18.  The Run button is on screen exactly when the claim has been
    loaded without error and no audit has been started, or the last one
    failed without a reason: not while loading, not on the error screen,
    not while an audit runs and not beside a result or a failure. *)
Theorem runButtonShown_iff (s : State) :
  runButtonShown s = true
  <-> loading s = false /\ whenTruthy (error s) = None
      /\ claim s <> None /\ audit s = None /\ auditing s = false
      /\ whenTruthy (auditError s) = None.
Proof.
  unfold runButtonShown, view.
  destruct (loading s); [split; [discriminate | intros [H _]; discriminate]|].
  destruct (whenTruthy (error s));
    [split; [discriminate | intros [_ [H _]]; discriminate]|].
  destruct (claim s);
    [|split; [discriminate | intros [_ [_ [H _]]]; now destruct H]].
  unfold verificationPanel, showIdle, showRunning.
  rewrite truthyOpt_whenTruthy.
  destruct (audit s), (auditing s), (whenTruthy (auditError s)); simpl;
    split; try discriminate; try (intros [_ [_ [_ [? [? ?]]]]]; discriminate);
    intros _; repeat split; discriminate.
Qed.

End LifecycleFacts.
